(** * Ejemplo.py: GDP analysis of one country with pandas

    A shallow embedding of the script [Ejemplo.py] and of the pandas
    operations it calls, followed by the properties of its pipeline.

    Numbers.  A pandas [float64] cell has two models here.  [float] keeps
    what the control flow of the script depends on: whether a value is
    missing (NaN), infinite, zero, equal to or below another one.  It is an
    exact rational, one of the two infinities, or NaN, with the special
    values of IEEE 754 (x/0, inf-inf, 0*inf, NaN propagation) and without
    rounding; the lookups, the exceptions, the mode, the extremes and the
    runs of the whole script are stated over it, with [rfloat], the same
    three-way type over the real numbers, for the square root.  What
    depends on the digits is stated in [Binary64], over the IEEE 754
    specification of the Standard Library, where every operation rounds
    as the hardware does: the growth formula, the variance and the standard
    deviation.  A numeric column is a [float64] column throughout: an
    all-integer column, which pandas keeps as [int64] with its wrap-around,
    is not modelled.

    State.  DataFrames are objects in a heap; [df] and [colombia] are
    references.  The script is a program in the monad [py], which threads
    the heap and the console output and stops at the first uncaught
    exception, recorded with the line that raised it. *)

From Corelib Require Import SpecFloat.
From Stdlib Require Import QArith Qcanon Reals Qreals Lra.
From stdpp Require Import numbers strings gmap sorting list.

Local Open Scope Qc_scope.

(** ** Extended rationals: the float64 cells of a column *)

Module Float.

Inductive float : Type :=
| NaN
| Inf (neg : bool)
| Fin (q : Qc).

#[global] Instance float_eq_dec : EqDecision float.
Proof. solve_decision. Defined.

Definition num (z : Z) : float := Fin (Qc_of_Z z).

(** [pandas.isna]: only NaN is missing; infinities are values. *)
Definition isna (x : float) : bool :=
  match x with NaN => true | _ => false end.

Definition notna (x : float) : bool := negb (isna x).

Definition is_zero (q : Qc) : bool := bool_decide (q = 0).
Definition is_neg (q : Qc) : bool := bool_decide (q < 0).

Definition fneg (x : float) : float :=
  match x with
  | NaN => NaN
  | Inf s => Inf (negb s)
  | Fin q => Fin (- q)
  end.

Definition fadd (x y : float) : float :=
  match x, y with
  | NaN, _ | _, NaN => NaN
  | Inf s, Inf t => if bool_decide (s = t) then Inf s else NaN
  | Inf s, Fin _ | Fin _, Inf s => Inf s
  | Fin a, Fin b => Fin (a + b)
  end.

Definition fsub (x y : float) : float := fadd x (fneg y).

Definition fmul (x y : float) : float :=
  match x, y with
  | NaN, _ | _, NaN => NaN
  | Inf s, Inf t => Inf (xorb s t)
  | Inf s, Fin b | Fin b, Inf s =>
      if is_zero b then NaN else Inf (xorb s (is_neg b))
  | Fin a, Fin b => Fin (a * b)
  end.

(** Division as numpy does it on float64: no exception, x/0 is an infinity
    with the sign of x, and 0/0 is NaN. *)
Definition fdiv (x y : float) : float :=
  match x, y with
  | NaN, _ | _, NaN => NaN
  | Inf _, Inf _ => NaN
  | Inf s, Fin b => Inf (xorb s (is_neg b))
  | Fin _, Inf _ => Fin 0
  | Fin a, Fin b =>
      if is_zero b then (if is_zero a then NaN else Inf (is_neg a))
      else Fin (a / b)
  end.

(** [x < y] and [x <= y] on float64: false as soon as one side is NaN. *)
Definition fltb (x y : float) : bool :=
  match x, y with
  | NaN, _ | _, NaN => false
  | Inf s, Inf t => s && negb t
  | Inf s, Fin _ => s
  | Fin _, Inf t => negb t
  | Fin a, Fin b => bool_decide (a < b)
  end.

Definition fleb (x y : float) : bool :=
  match x, y with
  | NaN, _ | _, NaN => false
  | _, _ => negb (fltb y x)
  end.

Definition fle (x y : float) : Prop := fleb x y = true.

Definition fmax (x y : float) : float := if fltb x y then y else x.
Definition fmin (x y : float) : float := if fltb y x then y else x.

Definition is_finite (x : float) : bool :=
  match x with Fin _ => true | _ => false end.

End Float.
Export Float.

(** ** Real-valued floats: what a square root produces *)

Module RFloat.

Inductive rfloat : Type :=
| RNaN
| RInf (neg : bool)
| RFin (r : R).

Definition of_float (x : float) : rfloat :=
  match x with
  | NaN => RNaN
  | Inf s => RInf s
  | Fin q => RFin (Q2R q)
  end.

(** [numpy.sqrt]: NaN below zero, no exception. *)
Definition rsqrt (x : float) : rfloat :=
  match x with
  | NaN => RNaN
  | Inf s => if s then RNaN else RInf false
  | Fin q => if is_neg q then RNaN else RFin (sqrt (Q2R q))
  end.

Definition r_is_zero (r : R) : bool := if Req_dec_T r 0 then true else false.
Definition r_is_neg (r : R) : bool := if Rlt_dec r 0 then true else false.

Definition rdiv (x y : rfloat) : rfloat :=
  match x, y with
  | RNaN, _ | _, RNaN => RNaN
  | RInf _, RInf _ => RNaN
  | RInf s, RFin b => RInf (xorb s (r_is_neg b))
  | RFin _, RInf _ => RFin 0
  | RFin a, RFin b =>
      if r_is_zero b then (if r_is_zero a then RNaN else RInf (r_is_neg a))
      else RFin (a / b)
  end.

Definition rmul (x y : rfloat) : rfloat :=
  match x, y with
  | RNaN, _ | _, RNaN => RNaN
  | RInf s, RInf t => RInf (xorb s t)
  | RInf s, RFin b | RFin b, RInf s =>
      if r_is_zero b then RNaN else RInf (xorb s (r_is_neg b))
  | RFin a, RFin b => RFin (a * b)
  end.

End RFloat.
Export RFloat.

(** ** Python exceptions *)

Inductive exn : Type :=
| KeyError
| ValueError
| TypeError
| OverflowError
| NameError.

#[global] Instance exn_eq_dec : EqDecision exn.
Proof. solve_decision. Defined.

(** ** pandas.Series: the reductions and transformations the script calls *)

Module Series.

#[global] Instance float_inhabited : Inhabited float := populate NaN.

(** Every reduction below runs with [skipna=True]: missing entries are
    left out before anything is computed. *)
Definition dropna (l : list float) : list float :=
  filter (λ x, x ≠ NaN) l.

Definition sum (l : list float) : float := foldr fadd (Fin 0) l.

Definition of_nat (n : nat) : float := num (Z.of_nat n).

Definition mean (l : list float) : float :=
  let v := dropna l in
  let count := length v in
  if decide (count = 0%nat) then NaN else fdiv (sum v) (of_nat count).

Fixpoint insert_sorted (x : float) (l : list float) : list float :=
  match l with
  | [] => [x]
  | y :: r => if fleb x y then x :: l else y :: insert_sorted x r
  end.

Definition sort (l : list float) : list float := foldr insert_sorted [] l.

Definition median (l : list float) : float :=
  let v := sort (dropna l) in
  let n := length v in
  if decide (n = 0%nat) then NaN
  else if Nat.even n
       then fdiv (fadd (v !!! (n / 2 - 1)%nat) (v !!! (n / 2)%nat)) (num 2)
       else v !!! (n / 2)%nat.

(** How often [x] occurs in [l]. *)
Definition value_count (x : float) (l : list float) : nat :=
  length (filter (λ y, y = x) l).

Definition max_count (l : list float) : nat :=
  foldr (λ x m, Nat.max (value_count x l) m) 0%nat l.

(** [Series.mode()]: all the values of highest frequency among the
    non-missing ones, each once, in ascending order. *)
Definition mode (l : list float) : list float :=
  let v := dropna l in
  sort (filter (λ x, value_count x v = max_count v) (remove_dups v)).

Definition max (l : list float) : float :=
  match dropna l with
  | [] => NaN
  | x :: r => foldl fmax x r
  end.

Definition min (l : list float) : float :=
  match dropna l with
  | [] => NaN
  | x :: r => foldl fmin x r
  end.

(** [Series.var()], [ddof=1]: NaN unless more than [ddof] values are
    present; otherwise the squared deviations from the average, summed and
    divided by [count - ddof]. *)
Definition var (l : list float) : float :=
  let v := dropna l in
  let count := length v in
  if decide (count ≤ 1)%nat then NaN
  else
    let avg := fdiv (sum v) (of_nat count) in
    let sqr := (λ x, fmul (fsub avg x) (fsub avg x)) <$> v in
    fdiv (sum sqr) (of_nat (count - 1)).

(** [Series.std()] is the square root of [Series.var()]. *)
Definition std (l : list float) : rfloat := rsqrt (var l).

(** [Series.ffill()]: a missing entry takes the last value seen before it;
    leading missing entries stay. *)
Fixpoint ffill_from (last : float) (l : list float) : list float :=
  match l with
  | [] => []
  | x :: r => if isna x then last :: ffill_from last r else x :: ffill_from x r
  end.

Definition ffill (l : list float) : list float := ffill_from NaN l.

(** [Series.shift(1)]. *)
Definition shift (l : list float) : list float :=
  match l with
  | [] => []
  | _ :: _ => NaN :: take (length l - 1) l
  end.

Inductive fill_method : Type := pad.

(** [Series.pct_change(periods=1, fill_method=...)]:
    [data = self.ffill()] unless [fill_method] is [None], then
    [data / data.shift(1) - 1]. *)
Definition pct_change (fill : option fill_method) (l : list float) : list float :=
  let data := match fill with Some pad => ffill l | None => l end in
  zip_with (λ a b, fsub (fdiv a b) (num 1)) data (shift data).

(** The default of [pct_change()] called without arguments in the pandas
    1.x and 2.x releases (2.1 and 2.2 warn that the default will go, and
    still fill).  pandas 3 no longer fills: that behaviour is
    [pct_change None].  In [Binary64] the fill method is a parameter. *)
Definition default_fill_method : option fill_method := Some pad.

(** [numpy.argmax] and [numpy.argmin]: one scan that keeps the first
    position of the best value seen, and moves only to a strictly better
    one. *)
Fixpoint argbest_from (better : float → float → bool)
    (best_i : nat) (best : float) (i : nat) (l : list float) : nat :=
  match l with
  | [] => best_i
  | x :: r => if better x best then argbest_from better i x (S i) r
              else argbest_from better best_i best (S i) r
  end.

Definition argmax_from : nat → float → nat → list float → nat :=
  argbest_from (λ x best, fltb best x).

Definition argmin_from : nat → float → nat → list float → nat :=
  argbest_from (λ x best, fltb x best).

Definition fillna (v : float) (l : list float) : list float :=
  (λ x, if isna x then v else x) <$> l.

(** [nanops.nanargmax] and [nanops.nanargmin]: the missing entries are
    first replaced by -inf (by +inf for the minimum), then [argmax]
    ([argmin]) runs on the filled values; the answer is -1 ([None] here)
    when every entry is missing.  An empty Series raises ValueError. *)
Definition nanargmax (l : list float) : exn + option nat :=
  match fillna (Inf true) l with
  | [] => inl ValueError
  | x :: r => if decide (dropna l = []) then inr None
              else inr (Some (argmax_from 0 x 1 r))
  end.

Definition nanargmin (l : list float) : exn + option nat :=
  match fillna (Inf false) l with
  | [] => inl ValueError
  | x :: r => if decide (dropna l = []) then inr None
              else inr (Some (argmin_from 0 x 1 r))
  end.

(** [Series.idxmax()]: the row label at [nanargmax]; the NaN label
    ([None]) when every entry is missing. *)
Definition idxmax (index : list nat) (l : list float) : exn + option nat :=
  match nanargmax l with
  | inl e => inl e
  | inr None => inr None
  | inr (Some i) => inr (index !! i)
  end.

Definition idxmin (index : list nat) (l : list float) : exn + option nat :=
  match nanargmin l with
  | inl e => inl e
  | inr None => inr None
  | inr (Some i) => inr (index !! i)
  end.

(** [s[0]] on a Series with the default RangeIndex. *)
Definition getitem0 (l : list float) : exn + float :=
  match l with
  | [] => inl KeyError
  | x :: _ => inr x
  end.

End Series.

(** ** DataFrames, the heap and the interpreter state *)

Module Frame.

(** A cell as [read_csv] leaves it: text or a number. *)
Inductive cell : Type :=
| Str (s : string)
| Num (x : float).

#[global] Instance cell_eq_dec : EqDecision cell.
Proof. solve_decision. Defined.

(** Row labels and named columns.  [read_csv] numbers the rows 0, 1, ...;
    a filtered frame keeps the labels of the rows it kept. *)
Record DataFrame : Type := mkFrame {
  index : list nat;
  columns : gmap string (list cell)
}.

(** Well-formed: unique labels, and every column as long as the index. *)
Definition wf (d : DataFrame) : Prop :=
  NoDup (index d) ∧ map_Forall (λ _ v, length v = length (index d)) (columns d).

#[global] Instance wf_dec (d : DataFrame) : Decision (wf d).
Proof. unfold wf. apply _. Defined.

(** Keep the entries whose mask bit is set, in their order. *)
Fixpoint mask_filter {A} (mask : list bool) (l : list A) : list A :=
  match mask, l with
  | b :: m, x :: r => if b then x :: mask_filter m r else mask_filter m r
  | _, _ => []
  end.

(** [d[mask]]: boolean indexing, a new frame with the selected rows. *)
Definition select (mask : list bool) (d : DataFrame) : DataFrame :=
  {| index := mask_filter mask (index d);
     columns := mask_filter mask <$> columns d |}.

(** [d.head()]: the first five rows. *)
Definition head (d : DataFrame) : DataFrame :=
  {| index := take 5 (index d); columns := take 5 <$> columns d |}.

(** [column == text], elementwise. *)
Definition eq_mask (col : list cell) (text : string) : list bool :=
  (λ c, match c with Str s => bool_decide (s = text) | Num _ => false end) <$> col.

(** A column read as float64; text in it makes the reduction fail. *)
Fixpoint as_float64 (col : list cell) : exn + list float :=
  match col with
  | [] => inr []
  | Num x :: r => match as_float64 r with inr v => inr (x :: v) | inl e => inl e end
  | Str _ :: _ => inl TypeError
  end.

(** [d.loc[label, column]] followed by [int(...)]: a scalar when exactly
    one row carries the label; no row is a KeyError, several rows give a
    Series, which [int] refuses. *)
Definition loc_scalar (idx : list nat) (col : list float) (label : option nat) : exn + float :=
  match label with
  | None => inl KeyError
  | Some lbl =>
      match filter (λ p, p.1 = lbl) (zip idx col) with
      | [] => inl KeyError
      | [p] => inr p.2
      | _ => inl TypeError
      end
  end.

(** [int(x)] on a float: truncation toward zero; NaN and the infinities
    are refused. *)
Definition py_int (x : float) : exn + Z :=
  match x with
  | NaN => inl ValueError
  | Inf _ => inl OverflowError
  | Fin q => inr (Z.quot (Qnum q) (Z.pos (Qden q)))
  end.

(** What the script sends to the console and to the plotting library.
    Number formatting is not modelled: a printed statistic is its label and
    its value. *)
Inductive event : Type :=
| EvText (s : string)
| EvFrame (d : DataFrame)
| EvStat (label : string) (v : float)
| EvStatR (label : string) (v : rfloat)
| EvYear (label : string) (anio : Z) (v : float)
| EvPlot (kind : string) (d : DataFrame).

Record world : Type := mkWorld {
  frames : gmap nat DataFrame;
  stdout : list event
}.

(** An uncaught exception: the line that raised it and its class. *)
Definition traceback : Type := nat * exn.

Definition py (A : Type) : Type := world → (traceback + A) * world.

#[global] Instance py_ret : MRet py := λ A a w, (inr a, w).

#[global] Instance py_bind : MBind py := λ A B f m w,
  match m w with
  | (inl e, w') => (inl e, w')
  | (inr a, w') => f a w'
  end.

Definition raise {A} (line : nat) (e : exn) : py A := λ w, (inl (line, e), w).

(** A pure library call made at [line]. *)
Definition at_line {A} (line : nat) (r : exn + A) : py A :=
  match r with
  | inl e => raise line e
  | inr a => mret a
  end.

Definition print (e : event) : py unit := λ w,
  (inr (), {| frames := frames w; stdout := stdout w ++ [e] |}).

Definition deref (line : nat) (r : nat) : py DataFrame := λ w,
  match frames w !! r with
  | Some d => (inr d, w)
  | None => (inl (line, NameError), w)
  end.

(** A new object, at an address no live object has. *)
Definition new (d : DataFrame) : py nat := λ w,
  let r := fresh (dom (frames w)) in
  (inr r, {| frames := <[r := d]> (frames w); stdout := stdout w |}).

Definition store (r : nat) (d : DataFrame) : py unit := λ w,
  (inr (), {| frames := <[r := d]> (frames w); stdout := stdout w |}).

(** [r[c]]. *)
Definition getitem (line : nat) (r : nat) (c : string) : py (list cell) :=
  d ← deref line r;
  match columns d !! c with
  | Some v => mret v
  | None => raise line KeyError
  end.

(** [r[c].<reduction>()] on a numeric column. *)
Definition getitem_float64 (line : nat) (r : nat) (c : string) : py (list float) :=
  col ← getitem line r c;
  at_line line (as_float64 col).

(** [r[mask]]: a new object. *)
Definition getitem_mask (line : nat) (r : nat) (mask : list bool) : py nat :=
  d ← deref line r;
  if decide (length mask = length (index d)) then new (select mask d)
  else raise line ValueError.

(** [r.copy()]: a new object with the same rows. *)
Definition copy (line : nat) (r : nat) : py nat :=
  d ← deref line r;
  new d.

(** [r[c] = v]: the object [r] refers to is changed in place. *)
Definition setitem (line : nat) (r : nat) (c : string) (v : list float) : py unit :=
  d ← deref line r;
  if decide (length v = length (index d))
  then store r {| index := index d; columns := <[c := Num <$> v]> (columns d) |}
  else raise line ValueError.

(** A seaborn call: it reads the frame and draws; rendering is outside the
    model and is taken not to fail. *)
Definition plot (line : nat) (kind : string) (r : nat) : py unit :=
  d ← deref line r;
  print (EvPlot kind d).

(** [keeps D m Φ]: run from a state where the objects [D] are live, [m]
    leaves each of them as it was, and a returned value satisfies [Φ]. *)
Definition keeps {A} (D : gset nat) (m : py A) (Φ : A → Prop) : Prop :=
  ∀ w, D ⊆ dom (frames w) →
    (∀ r, r ∈ D → frames (m w).2 !! r = frames w !! r)
    ∧ (∀ a, (m w).1 = inr a → Φ a).

End Frame.
Export Frame.

(** ** The script *)

Module Ejemplo.

(** *** The computed values, as functions of the columns they read *)

Definition media (pib : list float) : float := Series.mean pib.
Definition mediana (pib : list float) : float := Series.median pib.
Definition moda (pib : list float) : exn + float := Series.getitem0 (Series.mode pib).
Definition rango (pib : list float) : float := fsub (Series.max pib) (Series.min pib).
Definition varianza (pib : list float) : float := Series.var pib.
Definition desviacion (pib : list float) : rfloat := Series.std pib.
Definition coef_variacion (pib : list float) : rfloat :=
  rmul (rdiv (desviacion pib) (of_float (media pib))) (RFin 100).

(** Line 71: [pct_change() * 100]. *)
Definition crecimiento (pib : list float) : list float :=
  (λ x, fmul x (num 100)) <$> Series.pct_change Series.default_fill_method pib.

Definition crec_max (crec : list float) : float := Series.max crec.
Definition crec_min (crec : list float) : float := Series.min crec.

(** Lines 140 and 141: [int(colombia.loc[crec.idxmax(), "Año"])]. *)
Definition anio_max (idx : list nat) (anio crec : list float) : exn + Z :=
  match Series.idxmax idx crec with
  | inl e => inl e
  | inr label =>
      match loc_scalar idx anio label with
      | inl e => inl e
      | inr y => py_int y
      end
  end.

Definition anio_min (idx : list nat) (anio crec : list float) : exn + Z :=
  match Series.idxmin idx crec with
  | inl e => inl e
  | inr label =>
      match loc_scalar idx anio label with
      | inl e => inl e
      | inr y => py_int y
      end
  end.

Record medidas : Type := mkMedidas {
  m_media : float;
  m_mediana : float;
  m_moda : float;
  m_rango : float;
  m_varianza : float;
  m_desviacion : rfloat;
  m_coef_variacion : rfloat
}.

Record conclusiones : Type := mkConclusiones {
  c_crec_max : float;
  c_crec_min : float;
  c_anio_max : Z;
  c_anio_min : Z
}.

Section Script.

(** [pd.to_numeric] turns text into a number with pandas' own parser,
    which is not part of the script: it is a parameter.  Under
    [errors="coerce"] text that is no number becomes NaN. *)
Variable str_to_float : string → float.

Definition to_numeric (col : list cell) : list float :=
  (λ c, match c with Num x => x | Str s => str_to_float s end) <$> col.

(** Section 2, lines 29 to 33. *)
Definition filtrar (df : nat) : py nat :=
  paises ← getitem 29 df "Country Name";
  tmp ← getitem_mask 29 df (eq_mask paises "Colombia");
  colombia ← copy 29 tmp;
  print (EvText "===== DATOS DE COLOMBIA =====");;
  d ← deref 33 colombia;
  print (EvFrame (head d));;
  mret colombia.

(** Section 3, lines 40 and 41. *)
Definition limpieza (colombia : nat) : py unit :=
  year ← getitem 40 colombia "Year";
  setitem 40 colombia "Año" (to_numeric year);;
  value ← getitem 41 colombia "Value";
  setitem 41 colombia "PIB (USD)" (to_numeric value).

(** Section 4, lines 48 to 64. *)
Definition tendencia_y_dispersion (colombia : nat) : py medidas :=
  pib ← getitem_float64 48 colombia "PIB (USD)";
  let media := media pib in
  pib ← getitem_float64 49 colombia "PIB (USD)";
  let mediana := mediana pib in
  pib ← getitem_float64 50 colombia "PIB (USD)";
  moda ← at_line 50 (moda pib);
  pib ← getitem_float64 51 colombia "PIB (USD)";
  let rango := rango pib in
  pib ← getitem_float64 52 colombia "PIB (USD)";
  let varianza := varianza pib in
  pib ← getitem_float64 53 colombia "PIB (USD)";
  let desviacion := desviacion pib in
  let coef_variacion := rmul (rdiv desviacion (of_float media)) (RFin 100) in
  print (EvText "===== MEDIDAS DE TENDENCIA CENTRAL Y DISPERSIÓN =====");;
  print (EvStat "Media" media);;
  print (EvStat "Mediana" mediana);;
  print (EvStat "Moda" moda);;
  print (EvStat "Rango" rango);;
  print (EvStat "Varianza" varianza);;
  print (EvStatR "Desviación estándar" desviacion);;
  print (EvStatR "Coeficiente de variación" coef_variacion);;
  mret (mkMedidas media mediana moda rango varianza desviacion coef_variacion).

(** Section 5, line 71. *)
Definition tasa_de_crecimiento (colombia : nat) : py unit :=
  pib ← getitem_float64 71 colombia "PIB (USD)";
  setitem 71 colombia "Crecimiento (%)" (crecimiento pib).

(** Section 6, lines 78 to 131. *)
Definition visualizaciones (colombia : nat) : py unit :=
  plot 82 "lineplot" colombia;;
  plot 91 "barplot" colombia;;
  plot 101 "histplot" colombia;;
  plot 110 "boxplot" colombia;;
  plot 118 "scatterplot" colombia.

(** Section 7, lines 138 to 148. *)
Definition conclusiones_automaticas (colombia : nat) (m : medidas) : py conclusiones :=
  crec ← getitem_float64 138 colombia "Crecimiento (%)";
  let crec_max := crec_max crec in
  crec ← getitem_float64 139 colombia "Crecimiento (%)";
  let crec_min := crec_min crec in
  d ← deref 140 colombia;
  crec ← getitem_float64 140 colombia "Crecimiento (%)";
  anio ← getitem_float64 140 colombia "Año";
  anio_max ← at_line 140 (anio_max (index d) anio crec);
  d ← deref 141 colombia;
  crec ← getitem_float64 141 colombia "Crecimiento (%)";
  anio ← getitem_float64 141 colombia "Año";
  anio_min ← at_line 141 (anio_min (index d) anio crec);
  print (EvText "===== CONCLUSIONES =====");;
  print (EvYear "El mayor crecimiento" anio_max crec_max);;
  print (EvYear "La mayor caída" anio_min crec_min);;
  print (EvStat "PIB promedio" (m_media m));;
  print (EvStatR "Dispersión" (m_desviacion m));;
  mret (mkConclusiones crec_max crec_min anio_max anio_min).

(** The whole script after [df = pd.read_csv(url)] on line 18. *)
Definition main (df : nat) : py (medidas * conclusiones) :=
  print (EvText "===== PRIMERAS FILAS DEL DATASET GLOBAL =====");;
  d ← deref 22 df;
  print (EvFrame (head d));;
  colombia ← filtrar df;
  limpieza colombia;;
  m ← tendencia_y_dispersion colombia;
  tasa_de_crecimiento colombia;;
  visualizaciones colombia;;
  c ← conclusiones_automaticas colombia m;
  mret (m, c).

End Script.

End Ejemplo.
Export Ejemplo.

(** ** What a run computes and prints, as functions of the working table *)

Module Resultado.

(** The working table after lines 40 and 41, and after line 71. *)
Definition con_numeros (t : DataFrame) (anio pib : list float) : DataFrame :=
  {| index := index t;
     columns := <["PIB (USD)" := Num <$> pib]> (<["Año" := Num <$> anio]> (columns t)) |}.

Definition con_crecimiento (t : DataFrame) (anio pib : list float) : DataFrame :=
  {| index := index t;
     columns := <["Crecimiento (%)" := Num <$> crecimiento pib]>
                  (columns (con_numeros t anio pib)) |}.

(** The values of section 4. *)
Definition medidas_de (mo : float) (pib : list float) : medidas :=
  mkMedidas (media pib) (mediana pib) mo (rango pib) (varianza pib)
            (desviacion pib) (coef_variacion pib).

(** The outcome of the script on a working table with row labels [idx],
    years [anio] and gdp [pib]: the first lookup that raises, with its
    line, or all the values. *)
Definition analisis (idx : list nat) (anio pib : list float)
    : traceback + medidas * conclusiones :=
  match moda pib with
  | inl e => inl (50, e)
  | inr mo =>
      match anio_max idx anio (crecimiento pib) with
      | inl e => inl (140, e)
      | inr ymax =>
          match anio_min idx anio (crecimiento pib) with
          | inl e => inl (141, e)
          | inr ymin =>
              inr (medidas_de mo pib,
                   mkConclusiones (crec_max (crecimiento pib)) (crec_min (crecimiento pib))
                                  ymax ymin)
          end
      end
  end.

(** The console lines of sections 4 and 7 and the five charts of section
    6, in the order the script emits them. *)
Definition salida_medidas (m : medidas) : list event :=
  [EvText "===== MEDIDAS DE TENDENCIA CENTRAL Y DISPERSIÓN =====";
   EvStat "Media" (m_media m);
   EvStat "Mediana" (m_mediana m);
   EvStat "Moda" (m_moda m);
   EvStat "Rango" (m_rango m);
   EvStat "Varianza" (m_varianza m);
   EvStatR "Desviación estándar" (m_desviacion m);
   EvStatR "Coeficiente de variación" (m_coef_variacion m)].

Definition salida_graficos (t : DataFrame) : list event :=
  [EvPlot "lineplot" t; EvPlot "barplot" t; EvPlot "histplot" t;
   EvPlot "boxplot" t; EvPlot "scatterplot" t].

Definition salida_conclusiones (m : medidas) (c : conclusiones) : list event :=
  [EvText "===== CONCLUSIONES =====";
   EvYear "El mayor crecimiento" (c_anio_max c) (c_crec_max c);
   EvYear "La mayor caída" (c_anio_min c) (c_crec_min c);
   EvStat "PIB promedio" (m_media m);
   EvStatR "Dispersión" (m_desviacion m)].

Definition salida_previas (d t : DataFrame) : list event :=
  [EvText "===== PRIMERAS FILAS DEL DATASET GLOBAL =====";
   EvFrame (head d);
   EvText "===== DATOS DE COLOMBIA =====";
   EvFrame (head t)].

End Resultado.

(** ** Example inputs *)

Module Ejemplos.

(** A stand-in for pandas' parser in the examples: text made of decimal
    digits is that number, any other text is no number. *)
Fixpoint digits (s : string) (acc : N) : option N :=
  match s with
  | EmptyString => Some acc
  | String c r =>
      let n := Ascii.N_of_ascii c in
      if bool_decide (48 ≤ n ≤ 57)%N then digits r (10 * acc + (n - 48))%N else None
  end.

Definition parse_decimal (s : string) : float :=
  match s with
  | EmptyString => NaN
  | _ => match digits s 0%N with Some n => num (Z.of_N n) | None => NaN end
  end.

(** A source table without any row of the target country. *)
Definition df_sin_colombia : DataFrame :=
  {| index := [0; 1; 2]%nat;
     columns := {[ "Country Name" := [Str "Peru"; Str "Peru"; Str "Chile"];
                   "Year" := [Str "1960"; Str "1961"; Str "1960"];
                   "Value" := [Str "2571"; Str "2899"; Str "4110"] ]} |}.

(** A source table whose rows of the target country carry no number. *)
Definition df_sin_valores : DataFrame :=
  {| index := [0; 1; 2]%nat;
     columns := {[ "Country Name" := [Str "Colombia"; Str "Peru"; Str "Colombia"];
                   "Year" := [Str "1960"; Str "1960"; Str "1961"];
                   "Value" := [Str "n/a"; Str "2571"; Str ".."] ]} |}.

(** A source table with four rows of the target country, gdp 100, 110,
    99, 99. *)
Definition df_colombia : DataFrame :=
  {| index := [0; 1; 2; 3; 4]%nat;
     columns := {[ "Country Name" := [Str "Colombia"; Str "Peru"; Str "Colombia";
                                      Str "Colombia"; Str "Colombia"];
                   "Year" := [Str "1960"; Str "1960"; Str "1961"; Str "1962"; Str "1963"];
                   "Value" := [Str "100"; Str "2571"; Str "110"; Str "99"; Str "99"] ]} |}.

(** A source table with a single row of the target country. *)
Definition df_una_fila : DataFrame :=
  {| index := [0; 1]%nat;
     columns := {[ "Country Name" := [Str "Peru"; Str "Colombia"];
                   "Year" := [Str "1960"; Str "1960"];
                   "Value" := [Str "2571"; Str "4031"] ]} |}.

(** A source table without the year column. *)
Definition df_sin_year : DataFrame :=
  {| index := [0; 1]%nat;
     columns := {[ "Country Name" := [Str "Peru"; Str "Colombia"];
                   "Value" := [Str "2571"; Str "4031"] ]} |}.

(** Of a finished run: mean, median, mode and range, and the two years
    of the conclusions. *)
Definition resumen (r : traceback + medidas * conclusiones)
    : option (float * float * float * float * (Z * Z)) :=
  match r with
  | inl _ => None
  | inr (m, c) =>
      Some (m_media m, m_mediana m, m_moda m, m_rango m, (c_anio_max c, c_anio_min c))
  end.

(** Four rows of a working table: labels, years and growth, the growth
    column with a tie for the maximum. *)
Definition idx_empate : list nat := [10; 11; 12; 13]%nat.
Definition anio_empate : list float := [num 2001; num 2002; num 2003; num 2004].
Definition crec_empate : list float := [NaN; num 5; num 5; num (-3)].

(** The interpreter state after line 18: one object, nothing printed. *)
Definition loaded (d : DataFrame) : world := {| frames := {[ 0%nat := d ]}; stdout := [] |}.

End Ejemplos.

(** ** Words of the specification, for comparison with the code *)

Module Spec.

(** The most recent non-missing value of a column prefix; NaN if none. *)
Definition last_valid (l : list float) : float :=
  foldl (λ acc x, if isna x then acc else x) NaN l.

(** The growth formula of the specification, on two present values. *)
Definition growth_pct (x p : Qc) : Qc := (x - p) / p * Qc_of_Z 100.

End Spec.

(** ** binary64: the arithmetic of a float64 column, bit for bit

    [spec_float] is the IEEE 754 specification of the Standard Library
    (sign, mantissa, exponent; signed zeros, the infinities, one NaN), and
    its operations round to nearest, ties to even, as the hardware does:
    with 53 bits of precision and exponents up to 1024 they are the
    operations numpy applies to the cells of a [float64] column.  The
    growth column and the variance are computed here too, so that what is
    said about their values holds of the printed digits. *)

Module Binary64.

Definition prec : Z := 53%Z.
Definition emax : Z := 1024%Z.

Definition nan : spec_float := S754_nan.
Definition zero : spec_float := S754_zero false.

(** [float(n)] of an integer: the nearest binary64 number. *)
Definition of_Z (z : Z) : spec_float := binary_normalize prec emax z 0%Z false.
Definition of_nat (n : nat) : spec_float := of_Z (Z.of_nat n).

Definition sub : spec_float → spec_float → spec_float := SFsub prec emax.
Definition mul : spec_float → spec_float → spec_float := SFmul prec emax.
Definition div : spec_float → spec_float → spec_float := SFdiv prec emax.
Definition sqrt : spec_float → spec_float := SFsqrt prec emax.

Definition isna (x : spec_float) : bool :=
  match x with S754_nan => true | _ => false end.

Definition is_finite (x : spec_float) : bool :=
  match x with S754_zero _ | S754_finite _ _ _ => true | _ => false end.



Definition dropna (l : list spec_float) : list spec_float :=
  filter (λ x, isna x = false) l.

(** [Series.ffill()] and [Series.shift(1)], as in [Series]. *)
Fixpoint ffill_from (last : spec_float) (l : list spec_float) : list spec_float :=
  match l with
  | [] => []
  | x :: r => if isna x then last :: ffill_from last r else x :: ffill_from x r
  end.

Definition ffill (l : list spec_float) : list spec_float := ffill_from nan l.

Definition shift (l : list spec_float) : list spec_float :=
  match l with
  | [] => []
  | _ :: _ => nan :: take (length l - 1) l
  end.

(** [Series.pct_change(fill_method=...)]: [data / data.shift(1) - 1] on
    the column, forward-filled first unless [fill_method] is [None].  The
    script passes no [fill_method], and the default it then gets is the
    library's: [None] in pandas 3, the deprecated ['pad'] in pandas 1.x and
    2.x.  It is a parameter here. *)
Definition pct_change (fill : option Series.fill_method) (l : list spec_float)
    : list spec_float :=
  let data := match fill with Some Series.pad => ffill l | None => l end in
  zip_with (λ a b, sub (div a b) (of_Z 1)) data (shift data).



(** [np.putmask(values, mask, 0)]: missing entries count as [0.0]. *)
Definition fill_zero (l : list spec_float) : list spec_float :=
  (λ x, if isna x then zero else x) <$> l.

(** [nanops.nanmean]: the sum of the zero-filled column over the number
    of valid entries. *)
Definition mean (Σ : list spec_float → spec_float) (l : list spec_float) : spec_float :=
  let count := length (dropna l) in
  if decide (count = 0)%nat then nan else div (Σ (fill_zero l)) (of_nat count).

(** [nanops.nanvar], [ddof=1]: NaN unless more than one entry is valid;
    then [avg = values.sum() / count], [sqr = (avg - values) ** 2] with the
    missing entries put back to zero, and [sqr.sum() / (count - 1)], the
    two counts converted to binary64 (exactly, below 2^53 rows). *)
Definition var (Σ : list spec_float → spec_float) (l : list spec_float) : spec_float :=
  let count := length (dropna l) in
  if decide (count ≤ 1)%nat then nan
  else
    let avg := div (Σ (fill_zero l)) (of_nat count) in
    let sqr := (λ x, if isna x then zero else mul (sub avg x) (sub avg x)) <$> l in
    div (Σ sqr) (of_nat (count - 1)).

(** [nanops.nanstd]: [np.sqrt] of [nanvar]. *)
Definition std (Σ : list spec_float → spec_float) (l : list spec_float) : spec_float :=
  sqrt (var Σ l).

(** Lines 48, 52, 53 and 71 of the script. *)
Definition media := mean.
Definition varianza := var.
Definition desviacion := std.

Definition crecimiento (fill : option Series.fill_method) (pib : list spec_float)
    : list spec_float :=
  (λ x, mul x (of_Z 100)) <$> pct_change fill pib.

End Binary64.

(** The same words of the specification, evaluated in binary64. *)

Module Spec64.

(** [(x - p) / p * 100]. *)
Definition growth_pct (x p : spec_float) : spec_float :=
  Binary64.mul (Binary64.div (Binary64.sub x p) p) (Binary64.of_Z 100).


End Spec64.

(** * Properties *)

Local Close Scope Qc_scope.

Ltac fdecide := apply (bool_decide_unpack _); vm_compute; exact I.

(** ** Arithmetic of [float] *)

Section FloatFacts.


Lemma Qc_of_Z_0 : Qc_of_Z 0 = 0%Qc.
Proof. by apply Qc_is_canon. Qed.

Lemma is_zero_false (q : Qc) : q ≠ 0%Qc → is_zero q = false.
Proof. intros. unfold is_zero. by rewrite bool_decide_eq_false_2. Qed.

Lemma is_zero_0 : is_zero 0%Qc = true.
Proof. done. Qed.

Lemma Qc_of_Z_100_ne : Qc_of_Z 100 ≠ 0%Qc.
Proof. intros H. by apply (f_equal this) in H. Qed.


Lemma pct_zero_pred (x : Qc) :
  fmul (fsub (fdiv (Fin x) (Fin 0%Qc)) (num 1)) (num 100)
  = if is_zero x then NaN else Inf (is_neg x).
Proof.
  unfold fdiv. rewrite is_zero_0. destruct (is_zero x); [done|].
  unfold fsub, fadd, fneg, fmul, num. rewrite is_zero_false by apply Qc_of_Z_100_ne.
  f_equal. by destruct (is_neg x).
Qed.

Lemma pct_inf_zero_pred (s : bool) :
  fmul (fsub (fdiv (Inf s) (Fin 0%Qc)) (num 1)) (num 100) = Inf s.
Proof. by destruct s. Qed.

End FloatFacts.

(** ** Forward fill, shift and the growth column *)

Section Growth.

Implicit Types l : list float.

Lemma last_valid_snoc l x :
  Spec.last_valid (l ++ [x]) = if isna x then Spec.last_valid l else x.
Proof. unfold Spec.last_valid. by rewrite foldl_app. Qed.

Lemma ffill_from_length a l : length (Series.ffill_from a l) = length l.
Proof.
  revert a. induction l as [|x l IH]; intros a; [done|].
  simpl. destruct (isna x); simpl; by rewrite IH.
Qed.

Lemma ffill_from_lookup a l i :
  i < length l →
  Series.ffill_from a l !! i
  = Some (foldl (λ acc x, if isna x then acc else x) a (take (S i) l)).
Proof.
  revert a i. induction l as [|x l IH]; intros a i Hi; simpl in *; [lia|].
  destruct i as [|i].
  - rewrite take_0. by destruct (isna x).
  - destruct (isna x); simpl; rewrite IH by lia; done.
Qed.

Lemma ffill_lookup l i :
  i < length l → Series.ffill l !! i = Some (Spec.last_valid (take (S i) l)).
Proof. apply ffill_from_lookup. Qed.

Lemma ffill_length l : length (Series.ffill l) = length l.
Proof. apply ffill_from_length. Qed.

Lemma shift_length l : length (Series.shift l) = length l.
Proof.
  destruct l as [|x l]; [done|]. unfold Series.shift.
  rewrite length_cons, length_take. simpl. lia.
Qed.

Lemma shift_lookup_S l i : S i < length l → Series.shift l !! S i = l !! i.
Proof.
  destruct l as [|x l]; simpl; [lia|]. intros Hi.
  rewrite lookup_take_lt; [done|]. simpl; lia.
Qed.

Lemma pct_change_length fill l : length (Series.pct_change fill l) = length l.
Proof.
  unfold Series.pct_change. rewrite length_zip_with, shift_length.
  destruct fill as [[]|]; rewrite ?ffill_length; lia.
Qed.

Lemma crecimiento_length l : length (crecimiento l) = length l.
Proof. unfold crecimiento. by rewrite length_fmap, pct_change_length. Qed.

(** Row [i+1] of the growth column, whatever the column holds: the
    quotient of the forward-filled values of rows [i+1] and [i]. *)
Lemma crecimiento_lookup_S l i :
  S i < length l →
  crecimiento l !! S i
  = Some (fmul (fsub (fdiv (Spec.last_valid (take (S (S i)) l))
                           (Spec.last_valid (take (S i) l))) (num 1)) (num 100)).
Proof.
  intros Hi. unfold crecimiento, Series.pct_change, Series.default_fill_method.
  rewrite list_lookup_fmap, lookup_zip_with.
  rewrite shift_lookup_S by (by rewrite ffill_length).
  rewrite !ffill_lookup by lia. done.
Qed.

Lemma last_valid_at l i x :
  l !! i = Some x → isna x = false → Spec.last_valid (take (S i) l) = x.
Proof.
  intros Hl Hx. erewrite take_S_r by done.
  rewrite last_valid_snoc. by rewrite Hx.
Qed.

Lemma last_valid_at_nan l i :
  l !! i = Some NaN → Spec.last_valid (take (S i) l) = Spec.last_valid (take i l).
Proof. intros Hl. erewrite take_S_r by done. by rewrite last_valid_snoc. Qed.

End Growth.

(** ** Signs and NaN in binary64 arithmetic *)

Section Binary64Arithmetic.

Import Binary64.



































End Binary64Arithmetic.

(** ** The growth column in binary64 *)

Section Binary64Growth.

Import Binary64.

Lemma ffill64_from_lookup_number last l k x :
  l !! k = Some x → isna x = false → ffill_from last l !! k = Some x.
Proof.
  revert last k. induction l as [|y l IH]; intros last k Hk Hx; [done|].
  destruct k as [|k]; simpl in *.
  - simplify_eq. by rewrite Hx.
  - destruct (isna y); simpl; by apply IH.
Qed.

Lemma shift64_lookup_S l i : (S i < length l)%nat → shift l !! S i = l !! i.
Proof.
  intros Hi. destruct l as [|y l]; [simpl in Hi; lia|].
  unfold shift. rewrite lookup_cons. apply lookup_take_lt. simpl in *. lia.
Qed.


Lemma b64_div_nan_r x : div x nan = nan.
Proof. by destruct x. Qed.

Lemma pct_change64_lookup_S fill pib i x p :
  pib !! S i = Some x → pib !! i = Some p → isna x = false → isna p = false →
  pct_change fill pib !! S i = Some (sub (div x p) (of_Z 1)).
Proof.
  intros Hx Hp Hnx Hnp. unfold pct_change.
  set (data := match fill with Some Series.pad => ffill pib | None => pib end).
  assert (data !! S i = Some x ∧ data !! i = Some p) as [Hdx Hdp].
  { unfold data. destruct fill as [[]|]; [|done].
    split; by apply ffill64_from_lookup_number. }
  rewrite lookup_zip_with, Hdx. simpl.
  rewrite shift64_lookup_S by (by eapply lookup_lt_Some). by rewrite Hdp.
Qed.

Lemma pct_change64_lookup_0 fill pib : pib ≠ [] → pct_change fill pib !! 0%nat = Some nan.
Proof.
  intros Hne. destruct pib as [|y l]; [done|]. unfold pct_change.
  set (data := match fill with Some Series.pad => ffill (y :: l) | None => y :: l end).
  assert (∃ d r, data = d :: r) as (d & r & ->).
  { unfold data. destruct fill as [[]|]; [|by eauto].
    unfold ffill. simpl. destruct (isna y); eauto. }
  unfold shift. rewrite lookup_zip_with, !lookup_cons. cbn [mbind option_bind].
  by rewrite b64_div_nan_r.
Qed.


(** C1, as stated, fails in the last digits: line 71 computes
    [(gdp[i] / gdp[i-1] - 1) * 100], each operation rounded to binary64,
    and not the formula of the specification.  For gdp = [100, 110, 99, 99]
    the formula of the specification gives exactly 10 and -10; the script
    gives neither, whatever the fill method. *)
Lemma crecimiento_exact_counterexample :
  crecimiento None (of_Z <$> [100; 110; 99; 99]%Z)
    ≠ [nan; of_Z 10; of_Z (-10); zero]
  ∧ crecimiento (Some Series.pad) (of_Z <$> [100; 110; 99; 99]%Z)
    ≠ [nan; of_Z 10; of_Z (-10); zero]
  ∧ Spec64.growth_pct (of_Z 110) (of_Z 100) = of_Z 10
  ∧ Spec64.growth_pct (of_Z 99) (of_Z 110) = of_Z (-10).
Proof. split_and!; vm_compute; (discriminate || reflexivity). Qed.

(** C1, amended.  Row 0 of the growth column is missing; at every later
    row whose gdp and predecessor are both present the growth is
    [(gdp[i] / gdp[i-1] - 1) * 100] evaluated in binary64, which is the
    formula of the specification up to rounding; gdp = [100, 110, 99, 99]
    gives [missing, 10.000000000000009, -9.999999999999998, 0.0]
    (10 + 5 ulp and -10 + 1 ulp). *)
Theorem crecimiento_binary64 (fill : option Series.fill_method) (pib : list spec_float) :
  (pib ≠ [] → crecimiento fill pib !! 0%nat = Some nan)
  ∧ (∀ i x p, pib !! S i = Some x → pib !! i = Some p →
       isna x = false → isna p = false →
       crecimiento fill pib !! S i = Some (mul (sub (div x p) (of_Z 1)) (of_Z 100)))
  ∧ crecimiento fill (of_Z <$> [100; 110; 99; 99]%Z)
    = [nan; S754_finite false 5629499534213125 (-49);
       S754_finite true 5629499534213119 (-49); zero].
Proof.
  split_and!.
  - intros Hne. unfold crecimiento. by rewrite list_lookup_fmap, pct_change64_lookup_0.
  - intros i x p Hx Hp Hnx Hnp. unfold crecimiento.
    by rewrite list_lookup_fmap, (pct_change64_lookup_S _ _ _ x p).
  - destruct fill as [[]|]; vm_compute; reflexivity.
Qed.



(** Under the deprecated default of pandas 1.x and 2.x the column is
    forward-filled first: the missing entry of row 1 is read as the 100 of
    row 0, and rows 1 and 2 get growth 0 and 10.000000000000009. *)
Example crecimiento_pad_ex :
  crecimiento (Some Series.pad) [of_Z 100; nan; of_Z 110]
  = [nan; zero; S754_finite false 5629499534213125 (-49)].
Proof. vm_compute. reflexivity. Qed.

End Binary64Growth.

(** ** The order of [float] on values that are not NaN *)

Section FloatOrder.

Implicit Types x y z : float.

Lemma Qclt_irrefl (q : Qc) : ¬ (q < q)%Qc.
Proof. apply (irreflexivity Qclt). Qed.

Lemma fltb_irrefl x : fltb x x = false.
Proof.
  destruct x as [|[]|q]; simpl; try done.
  apply bool_decide_eq_false_2, Qclt_irrefl.
Qed.

Lemma fleb_refl x : x ≠ NaN → fleb x x = true.
Proof.
  intros. destruct x as [|[]|q]; simpl; try done.
  by rewrite bool_decide_eq_false_2 by apply Qclt_irrefl.
Qed.

Lemma fleb_total x y : x ≠ NaN → y ≠ NaN → fleb x y = true ∨ fleb y x = true.
Proof.
  intros Hx Hy. destruct x as [|[]|a], y as [|[]|b]; simpl; try done; auto.
  repeat case_bool_decide; simpl; auto.
  exfalso. eapply Qclt_irrefl, Qclt_trans; eauto.
Qed.

Lemma fltb_fleb x y : fltb x y = true → fleb x y = true.
Proof.
  destruct x as [|[]|a], y as [|[]|b]; simpl; try done.
  repeat case_bool_decide; simpl; try done.
  exfalso. eapply Qclt_irrefl, Qclt_trans; eauto.
Qed.

Lemma fltb_false_fleb x y : x ≠ NaN → y ≠ NaN → fltb x y = false → fleb y x = true.
Proof.
  intros Hx Hy H. destruct x as [|[]|a], y as [|[]|b]; simpl in *; try done.
  by rewrite H.
Qed.

Lemma fleb_notna x y : fleb x y = true → x ≠ NaN ∧ y ≠ NaN.
Proof. destruct x, y; simpl; try done. Qed.

Lemma fleb_fltb_false x y : fleb x y = true → fltb y x = false.
Proof.
  destruct x as [|[]|a], y as [|[]|b]; simpl; try done.
  by intros ?%negb_true_iff.
Qed.

Lemma fleb_trans x y z : fleb x y = true → fleb y z = true → fleb x z = true.
Proof.
  destruct x as [|[]|a], y as [|[]|b], z as [|[]|c]; simpl; try done.
  rewrite !negb_true_iff, !bool_decide_eq_false, <-!Qcle_ngt.
  apply Qcle_trans.
Qed.

Lemma fleb_antisym x y : fleb x y = true → fleb y x = true → x = y.
Proof.
  destruct x as [|[]|a], y as [|[]|b]; simpl; try done.
  rewrite !negb_true_iff, !bool_decide_eq_false, <-!Qcle_ngt.
  intros. f_equal. by apply Qcle_antisym.
Qed.

Lemma fleb_fltb_trans x y z : fleb x y = true → fltb y z = true → fltb x z = true.
Proof.
  destruct x as [|[]|a], y as [|[]|b], z as [|[]|c]; simpl; try done.
  rewrite negb_true_iff, !bool_decide_eq_false, !bool_decide_eq_true, <-Qcle_ngt.
  apply Qcle_lt_trans.
Qed.

Lemma fltb_fleb_trans x y z : fltb x y = true → fleb y z = true → fltb x z = true.
Proof.
  destruct x as [|[]|a], y as [|[]|b], z as [|[]|c]; simpl; try done.
  rewrite negb_true_iff, !bool_decide_eq_false, !bool_decide_eq_true, <-Qcle_ngt.
  apply Qclt_le_trans.
Qed.

Lemma fltb_neq x y : fltb x y = true → x ≠ y.
Proof. intros H ->. by rewrite fltb_irrefl in H. Qed.

Lemma fltb_of_fleb_neq x y : fleb x y = true → x ≠ y → fltb x y = true.
Proof.
  intros Hle Hne. destruct (fltb x y) eqn:E; [done|].
  destruct (fleb_notna _ _ Hle). destruct Hne.
  apply fleb_antisym; [done|]. by apply fltb_false_fleb.
Qed.

Lemma fleb_inf_top x : x ≠ NaN → fleb x (Inf false) = true.
Proof. by destruct x as [|[]|]. Qed.

Lemma fleb_inf_bot x : x ≠ NaN → fleb (Inf true) x = true.
Proof. by destruct x as [|[]|]. Qed.

End FloatOrder.

(** ** [Series.max] and [Series.min] *)

Section Extremes.

Implicit Types l : list float.

Lemma dropna_elem l x : x ∈ Series.dropna l ↔ x ∈ l ∧ x ≠ NaN.
Proof. unfold Series.dropna. by rewrite list_elem_of_filter, (comm and). Qed.

Lemma fmax_spec (x a : float) :
  x ≠ NaN → a ≠ NaN →
  (fmax x a = x ∨ fmax x a = a)
  ∧ fleb x (fmax x a) = true ∧ fleb a (fmax x a) = true.
Proof.
  intros Hx Ha. unfold fmax. destruct (fltb x a) eqn:E.
  - split_and!; [by right|by apply fltb_fleb|by apply fleb_refl].
  - split_and!; [by left|by apply fleb_refl|by apply fltb_false_fleb].
Qed.

Lemma fmin_spec (x a : float) :
  x ≠ NaN → a ≠ NaN →
  (fmin x a = x ∨ fmin x a = a)
  ∧ fleb (fmin x a) x = true ∧ fleb (fmin x a) a = true.
Proof.
  intros Hx Ha. unfold fmin. destruct (fltb a x) eqn:E.
  - split_and!; [by right|by apply fltb_fleb|by apply fleb_refl].
  - split_and!; [by left|by apply fleb_refl|by apply fltb_false_fleb].
Qed.

Lemma foldl_fmax_spec x r :
  x ≠ NaN → Forall (λ y, y ≠ NaN) r →
  foldl fmax x r ∈ x :: r ∧ ∀ y, y ∈ x :: r → fleb y (foldl fmax x r) = true.
Proof.
  revert x. induction r as [|a r IH]; intros x Hx Hr; simpl.
  - split; [by left|]. intros y Hy. apply list_elem_of_singleton in Hy as ->.
    by apply fleb_refl.
  - inversion_clear Hr as [|?? Ha Hr'].
    destruct (fmax_spec x a Hx Ha) as (Hor & Hxm & Ham).
    destruct (IH (fmax x a)) as [Hin Hmax]; [by destruct Hor as [-> | ->]|done|].
    split.
    + apply elem_of_cons in Hin as [Hin|Hin]; rewrite !elem_of_cons.
      * rewrite Hin. destruct Hor as [-> | ->]; auto.
      * auto.
    + intros y. rewrite !elem_of_cons. intros [->|[->|Hy]].
      * eapply fleb_trans; [exact Hxm|]. apply Hmax. by left.
      * eapply fleb_trans; [exact Ham|]. apply Hmax. by left.
      * apply Hmax. by right.
Qed.

Lemma foldl_fmin_spec x r :
  x ≠ NaN → Forall (λ y, y ≠ NaN) r →
  foldl fmin x r ∈ x :: r ∧ ∀ y, y ∈ x :: r → fleb (foldl fmin x r) y = true.
Proof.
  revert x. induction r as [|a r IH]; intros x Hx Hr; simpl.
  - split; [by left|]. intros y Hy. apply list_elem_of_singleton in Hy as ->.
    by apply fleb_refl.
  - inversion_clear Hr as [|?? Ha Hr'].
    destruct (fmin_spec x a Hx Ha) as (Hor & Hxm & Ham).
    destruct (IH (fmin x a)) as [Hin Hmin]; [by destruct Hor as [-> | ->]|done|].
    split.
    + apply elem_of_cons in Hin as [Hin|Hin]; rewrite !elem_of_cons.
      * rewrite Hin. destruct Hor as [-> | ->]; auto.
      * auto.
    + intros y. rewrite !elem_of_cons. intros [->|[->|Hy]].
      * eapply fleb_trans; [|exact Hxm]. apply Hmin. by left.
      * eapply fleb_trans; [|exact Ham]. apply Hmin. by left.
      * apply Hmin. by right.
Qed.

(** The maximum is a non-missing entry and bounds every non-missing
    entry. *)
Lemma max_spec l :
  Series.dropna l ≠ [] →
  (Series.max l ∈ l ∧ Series.max l ≠ NaN)
  ∧ ∀ y, y ∈ l → y ≠ NaN → fleb y (Series.max l) = true.
Proof.
  unfold Series.max. destruct (Series.dropna l) as [|x r] eqn:E; [done|]. intros _.
  assert (Forall (λ y, y ≠ NaN) (x :: r)) as Hall.
  { rewrite <-E. apply Forall_forall. by intros y [_ ?]%dropna_elem. }
  inversion_clear Hall as [|?? Hx Hr].
  destruct (foldl_fmax_spec x r Hx Hr) as [Hin Hmax].
  rewrite <-E in Hin. apply dropna_elem in Hin. split; [done|].
  intros y Hy Hna. apply Hmax. rewrite <-E. by apply dropna_elem.
Qed.

Lemma min_spec l :
  Series.dropna l ≠ [] →
  (Series.min l ∈ l ∧ Series.min l ≠ NaN)
  ∧ ∀ y, y ∈ l → y ≠ NaN → fleb (Series.min l) y = true.
Proof.
  unfold Series.min. destruct (Series.dropna l) as [|x r] eqn:E; [done|]. intros _.
  assert (Forall (λ y, y ≠ NaN) (x :: r)) as Hall.
  { rewrite <-E. apply Forall_forall. by intros y [_ ?]%dropna_elem. }
  inversion_clear Hall as [|?? Hx Hr].
  destruct (foldl_fmin_spec x r Hx Hr) as [Hin Hmin].
  rewrite <-E in Hin. apply dropna_elem in Hin. split; [done|].
  intros y Hy Hna. apply Hmin. rewrite <-E. by apply dropna_elem.
Qed.

Lemma dropna_nonempty l x : x ∈ l → x ≠ NaN → Series.dropna l ≠ [].
Proof.
  intros Hx Hna E. assert (x ∈ Series.dropna l) as Hin by by apply dropna_elem.
  rewrite E in Hin. by apply not_elem_of_nil in Hin.
Qed.

(** An infinite entry is what the lookups of lines 138 and 139 return. *)
Lemma max_inf l : Inf false ∈ l → Series.max l = Inf false.
Proof.
  intros Hin. destruct (max_spec l) as [[_ Hna] Hmax]; [by eapply dropna_nonempty|].
  apply fleb_antisym; [by apply fleb_inf_top|by apply Hmax].
Qed.

Lemma min_inf l : Inf true ∈ l → Series.min l = Inf true.
Proof.
  intros Hin. destruct (min_spec l) as [[_ Hna] Hmin]; [by eapply dropna_nonempty|].
  apply fleb_antisym; [by apply Hmin|by apply fleb_inf_bot].
Qed.

End Extremes.

(** C3, as stated, fails: gdp = [0, 5] gives growth +inf at row 1, and
    the maximum lookup of line 138 returns it. *)
Lemma crecimiento_zero_counterexample :
  crecimiento [num 0; num 5] = [NaN; Inf false]
  ∧ crec_max (crecimiento [num 0; num 5]) = Inf false.
Proof. split; fdecide. Qed.

(** C3, amended.  After a gdp of exactly zero the growth is not guarded:
    it is +inf or -inf with the sign of gdp[i] when gdp[i] is a nonzero
    number (or itself infinite), and missing only when gdp[i] is zero or
    missing; an infinite growth is what the maximum (minimum) lookup then
    returns. *)
Theorem crecimiento_zero_predecessor (pib : list float) (i : nat) (x : float) :
  pib !! i = Some (Fin 0%Qc) → pib !! S i = Some x →
  crecimiento pib !! S i
  = Some (match x with
          | NaN => NaN
          | Inf s => Inf s
          | Fin q => if is_zero q then NaN else Inf (is_neg q)
          end)
  ∧ (crecimiento pib !! S i = Some (Inf false) → crec_max (crecimiento pib) = Inf false)
  ∧ (crecimiento pib !! S i = Some (Inf true) → crec_min (crecimiento pib) = Inf true).
Proof.
  intros Hp Hx. split_and!.
  - rewrite crecimiento_lookup_S by (by eapply lookup_lt_Some).
    rewrite (last_valid_at _ _ _ Hp) by done. f_equal.
    destruct x as [|s|q].
    + by rewrite (last_valid_at_nan _ _ Hx), (last_valid_at _ _ _ Hp).
    + rewrite (last_valid_at _ _ _ Hx) by done. apply pct_inf_zero_pred.
    + rewrite (last_valid_at _ _ _ Hx) by done. apply pct_zero_pred.
  - intros H. apply max_inf. by eapply list_elem_of_lookup_2.
  - intros H. apply min_inf. by eapply list_elem_of_lookup_2.
Qed.

Lemma crecimiento_zero_predecessor_witness :
  crecimiento [num 0; num 5] !! 1 = Some (Inf false)
  ∧ (crecimiento [num 0; num 5] !! 1 = Some (Inf false) →
     crec_max (crecimiento [num 0; num 5]) = Inf false)
  ∧ (crecimiento [num 0; num 5] !! 1 = Some (Inf true) →
     crec_min (crecimiento [num 0; num 5]) = Inf true).
Proof.
  apply (crecimiento_zero_predecessor [num 0; num 5] 0 (num 5)); fdecide.
Defined.

(** ** Sorting and the mode *)

Section Mode.

Implicit Types l v : list float.

Lemma insert_sorted_perm x l : Series.insert_sorted x l ≡ₚ x :: l.
Proof.
  induction l as [|y l IH]; simpl; [done|].
  destruct (fleb x y); [done|]. by rewrite IH, Permutation_swap.
Qed.

Lemma sort_perm l : Series.sort l ≡ₚ l.
Proof.
  induction l as [|x l IH]; simpl; [done|].
  by rewrite insert_sorted_perm, IH.
Qed.

Lemma insert_sorted_sorted x l :
  x ≠ NaN → Forall (λ y, y ≠ NaN) l →
  StronglySorted fle l → StronglySorted fle (Series.insert_sorted x l).
Proof.
  intros Hx Hl Hs. induction Hs as [|y l Hs IH Hy]; simpl.
  - repeat constructor.
  - inversion_clear Hl as [|?? Hyn Hl'].
    destruct (fleb x y) eqn:E.
    + constructor; [by constructor|]. constructor; [done|].
      eapply Forall_impl; [exact Hy|]. intros z Hz. by eapply fleb_trans.
    + constructor; [by apply IH|].
      rewrite insert_sorted_perm. constructor; [|done].
      destruct (fleb_total x y Hx Hyn) as [H|H]; [congruence|done].
Qed.

Lemma sort_sorted l : Forall (λ y, y ≠ NaN) l → StronglySorted fle (Series.sort l).
Proof.
  induction 1 as [|x l Hx Hl IH]; simpl; [constructor|].
  apply insert_sorted_sorted; [done| |done]. by rewrite sort_perm.
Qed.

(** The first entry of a sorted column is its smallest. *)
Lemma sort_head_le l m r :
  Forall (λ y, y ≠ NaN) l → Series.sort l = m :: r →
  m ∈ l ∧ ∀ y, y ∈ l → fleb m y = true.
Proof.
  intros Hl E. pose proof (sort_sorted l Hl) as Hs. rewrite E in Hs.
  pose proof (sort_perm l) as Hp. rewrite E in Hp.
  split; [rewrite <-Hp; by left|].
  intros y Hy. rewrite <-Hp in Hy. apply elem_of_cons in Hy as [->|Hy].
  - apply fleb_refl. eapply (proj1 (Forall_forall _ _) Hl). rewrite <-Hp. by left.
  - inversion_clear Hs as [|?? _ Hall].
    by eapply (proj1 (Forall_forall _ _) Hall).
Qed.

Lemma dropna_Forall l : Forall (λ y, y ≠ NaN) (Series.dropna l).
Proof. apply Forall_forall. by intros y [_ ?]%dropna_elem. Qed.

Lemma value_count_perm x l l' :
  l ≡ₚ l' → Series.value_count x l = Series.value_count x l'.
Proof. intros Hp. unfold Series.value_count. by rewrite Hp. Qed.

Lemma value_count_notin x l : x ∉ l → Series.value_count x l = 0.
Proof.
  intros Hx. unfold Series.value_count.
  induction l as [|y l IH]; [done|]. apply not_elem_of_cons in Hx as [Hne Hx].
  rewrite filter_cons_False by done. by apply IH.
Qed.

(** The highest frequency, over the entries of any part [l] of the
    column [v]. *)
Lemma foldr_max_count_bound v l x :
  x ∈ l →
  Series.value_count x v ≤ foldr (λ x m, Nat.max (Series.value_count x v) m) 0 l.
Proof.
  induction l as [|y l IH]; [by intros ?%elem_of_nil|].
  intros [->|Hx]%elem_of_cons; simpl; [lia|]. specialize (IH Hx). lia.
Qed.

Lemma foldr_max_count_attained v l :
  l ≠ [] →
  ∃ x, x ∈ l ∧ Series.value_count x v = foldr (λ x m, Nat.max (Series.value_count x v) m) 0 l.
Proof.
  induction l as [|y l IH]; [done|]. intros _. simpl.
  destruct l as [|z l].
  - exists y. split; [by left|]. simpl. lia.
  - destruct IH as (x & Hx & Hc); [done|].
    destruct (Nat.max_spec (Series.value_count y v)
                (foldr (λ x m, Nat.max (Series.value_count x v) m) 0 (z :: l)))
      as [[_ ->]|[_ ->]].
    + exists x. split; [by right|done].
    + exists y. split; [by left|done].
Qed.

Lemma max_count_bound v y : Series.value_count y v ≤ Series.max_count v.
Proof.
  destruct (decide (y ∈ v)) as [Hy|Hy].
  - by apply foldr_max_count_bound.
  - rewrite value_count_notin by done. lia.
Qed.

Lemma max_count_attained v :
  v ≠ [] → ∃ x, x ∈ v ∧ Series.value_count x v = Series.max_count v.
Proof. apply foldr_max_count_attained. Qed.

Lemma max_count_perm_le v v' : v ≡ₚ v' → Series.max_count v ≤ Series.max_count v'.
Proof.
  intros Hp. destruct (decide (v = [])) as [->|Hne]; [apply Nat.le_0_l|].
  destruct (max_count_attained v Hne) as (x & _ & <-).
  rewrite (value_count_perm _ _ _ Hp). apply max_count_bound.
Qed.

Lemma max_count_perm v v' : v ≡ₚ v' → Series.max_count v = Series.max_count v'.
Proof. intros Hp. apply Nat.le_antisymm; by apply max_count_perm_le. Qed.

(** What [Series.mode] holds: exactly the non-missing values of highest
    frequency. *)
Lemma mode_elem l x :
  x ∈ Series.mode l
  ↔ x ∈ Series.dropna l
    ∧ Series.value_count x (Series.dropna l) = Series.max_count (Series.dropna l).
Proof.
  unfold Series.mode. rewrite sort_perm, list_elem_of_filter, elem_of_remove_dups.
  tauto.
Qed.

Lemma mode_nonempty l : Series.dropna l ≠ [] → Series.mode l ≠ [].
Proof.
  intros Hne E. destruct (max_count_attained (Series.dropna l) Hne) as (x & Hx & Hc).
  assert (x ∈ Series.mode l) as Hin by by apply mode_elem.
  rewrite E in Hin. by apply elem_of_nil in Hin.
Qed.

Lemma mode_head_spec l m r :
  Series.mode l = m :: r →
  (m ∈ Series.dropna l
   ∧ Series.value_count m (Series.dropna l) = Series.max_count (Series.dropna l))
  ∧ ∀ y, y ∈ Series.dropna l →
      Series.value_count y (Series.dropna l) = Series.value_count m (Series.dropna l) →
      fleb m y = true.
Proof.
  intros E. assert (m ∈ Series.mode l) as Hm by (rewrite E; by left).
  apply mode_elem in Hm as [Hm Hc]. split; [done|].
  intros y Hy Hcy. unfold Series.mode in E.
  eapply sort_head_le in E as [_ Hmin].
  - apply Hmin. apply list_elem_of_filter. rewrite elem_of_remove_dups.
    split; [congruence|done].
  - apply Forall_forall. intros z [_ Hz]%list_elem_of_filter.
    rewrite elem_of_remove_dups in Hz. by apply dropna_elem in Hz as [_ ?].
Qed.

End Mode.

(** C5.  On a column with at least one valid value the mode statistic is
    a valid value of the column, no value occurs more often, and every
    value that occurs as often is at least as large; so it depends only on
    the multiset of values. *)
Theorem moda_most_frequent_smallest (pib : list float) :
  Series.dropna pib ≠ [] →
  ∃ m, moda pib = inr m
     ∧ m ∈ Series.dropna pib
     ∧ (∀ y, Series.value_count y (Series.dropna pib)
             ≤ Series.value_count m (Series.dropna pib))
     ∧ (∀ y, y ∈ Series.dropna pib →
             Series.value_count y (Series.dropna pib)
             = Series.value_count m (Series.dropna pib) →
             fleb m y = true)
     ∧ (∀ pib', pib ≡ₚ pib' → moda pib' = inr m).
Proof.
  intros Hne. unfold moda.
  destruct (Series.mode pib) as [|m r] eqn:E; [by apply mode_nonempty in E|].
  exists m. destruct (mode_head_spec _ _ _ E) as [[Hm Hc] Hmin].
  split_and!; [done|done| |done|].
  - intros y. rewrite Hc. apply max_count_bound.
  - intros pib' Hp.
    assert (Series.dropna pib ≡ₚ Series.dropna pib') as Hd
      by (unfold Series.dropna; by rewrite Hp).
    destruct (Series.mode pib') as [|m' r'] eqn:E'.
    { apply mode_nonempty in E'; [done|]. intros Hnil. rewrite Hnil in Hd.
      by apply Permutation_nil_r in Hd. }
    destruct (mode_head_spec _ _ _ E') as [[Hm' Hc'] Hmin'].
    simpl. f_equal. apply fleb_antisym.
    + apply Hmin'; [by rewrite <-Hd|].
      by rewrite Hc', <-(value_count_perm _ _ _ Hd), <-(max_count_perm _ _ Hd).
    + apply Hmin; [by rewrite Hd|].
      by rewrite Hc, (value_count_perm _ _ _ Hd), (max_count_perm _ _ Hd).
Qed.

Lemma moda_most_frequent_smallest_witness :
  ∃ m, moda [num 200; num 100; num 300; num 100; num 200] = inr m
     ∧ m ∈ Series.dropna [num 200; num 100; num 300; num 100; num 200]
     ∧ (∀ y, Series.value_count y (Series.dropna [num 200; num 100; num 300; num 100; num 200])
             ≤ Series.value_count m (Series.dropna [num 200; num 100; num 300; num 100; num 200]))
     ∧ (∀ y, y ∈ Series.dropna [num 200; num 100; num 300; num 100; num 200] →
             Series.value_count y (Series.dropna [num 200; num 100; num 300; num 100; num 200])
             = Series.value_count m (Series.dropna [num 200; num 100; num 300; num 100; num 200]) →
             fleb m y = true)
     ∧ (∀ pib', [num 200; num 100; num 300; num 100; num 200] ≡ₚ pib' → moda pib' = inr m).
Proof.
  apply (moda_most_frequent_smallest [num 200; num 100; num 300; num 100; num 200]).
  vm_compute. discriminate.
Defined.

Example moda_tie_ex : moda [num 200; num 100; num 300; num 100; num 200] = inr (num 100).
Proof. fdecide. Qed.

(** ** Variance, standard deviation and coefficient of variation *)

Section Dispersion.

Implicit Types qs : list Qc.














End Dispersion.

(** ** Variance and standard deviation in binary64 *)

Section Binary64Dispersion.

Import Binary64.








End Binary64Dispersion.



(** ** First position of the extreme value *)

Section ArgBest.

(** [le y m]: [m] is at least as good as [y]; [better x b]: [x] is
    strictly better than [b]. *)
Variable better : float → float → bool.
Variable le : float → float → bool.

Hypothesis le_refl : ∀ x, x ≠ NaN → le x x = true.
Hypothesis le_trans : ∀ x y z, le x y = true → le y z = true → le x z = true.
Hypothesis better_le : ∀ x b, better x b = true → le b x = true.
Hypothesis not_better_le : ∀ x b, x ≠ NaN → b ≠ NaN → better x b = false → le x b = true.
Hypothesis le_better : ∀ y b x, le y b = true → better x b = true → better x y = true.

Lemma argbest_from_spec (pre l : list float) (bi : nat) (b : float) :
  Forall (λ y, y ≠ NaN) (pre ++ l) →
  pre !! bi = Some b →
  (∀ y, y ∈ pre → le y b = true) →
  (∀ j y, j < bi → pre !! j = Some y → better b y = true) →
  ∃ m, (pre ++ l) !! Series.argbest_from better bi b (length pre) l = Some m
     ∧ (∀ y, y ∈ pre ++ l → le y m = true)
     ∧ (∀ j y, j < Series.argbest_from better bi b (length pre) l →
               (pre ++ l) !! j = Some y → better m y = true).
Proof.
  revert pre bi b. induction l as [|x r IH]; intros pre bi b Hna Hb Hle Hfirst.
  - simpl. rewrite app_nil_r. eauto.
  - assert (x ≠ NaN ∧ b ≠ NaN) as [Hx Hbn].
    { rewrite Forall_forall in Hna. split; apply Hna.
      - apply elem_of_app. right. by left.
      - apply elem_of_app. left. by eapply list_elem_of_lookup_2. }
    assert (bi < length pre) as Hbi by by eapply lookup_lt_Some.
    simpl. replace (pre ++ x :: r) with ((pre ++ [x]) ++ r) in * by by rewrite <-app_assoc.
    replace (S (length pre)) with (length (pre ++ [x])) by (rewrite length_app; simpl; lia).
    destruct (better x b) eqn:E.
    + apply IH; [done| | |].
      * rewrite lookup_app_r by lia. by rewrite Nat.sub_diag.
      * intros y [Hy| ->%list_elem_of_singleton]%elem_of_app; [|by apply le_refl].
        eapply le_trans; [by apply Hle|by apply better_le].
      * intros j y Hj Hy.
        rewrite lookup_app_l in Hy by lia.
        eapply le_better; [|done]. apply Hle. by eapply list_elem_of_lookup_2.
    + apply IH; [done| | |].
      * by rewrite lookup_app_l.
      * intros y [Hy| ->%list_elem_of_singleton]%elem_of_app; [by apply Hle|].
        by apply not_better_le.
      * intros j y Hj Hy. rewrite lookup_app_l in Hy by lia. by eapply Hfirst.
Qed.

(** On a non-empty column without NaN the scan from position 0 returns
    the first position of a best value. *)
Lemma argbest_spec (x : float) (r : list float) :
  Forall (λ y, y ≠ NaN) (x :: r) →
  ∃ m, (x :: r) !! Series.argbest_from better 0 x 1 r = Some m
     ∧ (∀ y, y ∈ x :: r → le y m = true)
     ∧ (∀ j y, j < Series.argbest_from better 0 x 1 r →
               (x :: r) !! j = Some y → better m y = true).
Proof.
  intros Hna. apply (argbest_from_spec [x] r 0 x); [done|done| |].
  - intros y ->%list_elem_of_singleton. apply le_refl. by inversion Hna.
  - intros j y Hj. lia.
Qed.

End ArgBest.

(** ** [idxmax], [idxmin] and the year lookup *)

Section Reporter.

Implicit Types crec anio : list float.

Lemma fillna_Forall v crec : v ≠ NaN → Forall (λ y, y ≠ NaN) (Series.fillna v crec).
Proof.
  intros Hv. unfold Series.fillna. apply Forall_fmap, Forall_forall.
  intros x _. simpl. by destruct x.
Qed.

Lemma fillna_lookup_notna v crec i g :
  crec !! i = Some g → g ≠ NaN → Series.fillna v crec !! i = Some g.
Proof.
  intros Hg Hna. unfold Series.fillna. rewrite list_lookup_fmap, Hg. simpl.
  by destruct g.
Qed.

Lemma fillna_lookup_inv v crec i m :
  Series.fillna v crec !! i = Some m → m ≠ v → crec !! i = Some m.
Proof.
  unfold Series.fillna. rewrite list_lookup_fmap.
  destruct (crec !! i) as [g|]; [|done]. simpl. intros [= <-] Hne.
  by destruct g.
Qed.

Lemma nanargmax_spec crec :
  Series.dropna crec ≠ [] → Series.max crec ≠ Inf true →
  ∃ i, Series.nanargmax crec = inr (Some i)
     ∧ crec !! i = Some (Series.max crec)
     ∧ ∀ j g, j < i → crec !! j = Some g → g ≠ NaN → fltb g (Series.max crec) = true.
Proof.
  intros Hne Htop. destruct (max_spec crec Hne) as [[HM HMna] HMmax].
  unfold Series.nanargmax.
  pose proof (fillna_Forall (Inf true) crec) as Hfill.
  destruct (Series.fillna (Inf true) crec) as [|x r] eqn:E.
  { destruct crec; [done|discriminate E]. }
  rewrite decide_False by done.
  destruct (argbest_spec (λ x best, fltb best x) fleb fleb_refl fleb_trans
              (λ x b, fltb_fleb b x)
              (λ x b Hx Hb, fltb_false_fleb b x Hb Hx)
              (λ y b x, fleb_fltb_trans y b x) x r) as (m & Hk & Hmax & Hfirst); [by apply Hfill|].
  fold Series.argmax_from in Hk, Hfirst.
  set (k := Series.argmax_from 0 x 1 r) in *. rewrite <-E in Hk, Hmax, Hfirst.
  assert (fleb (Series.max crec) m = true) as HMm.
  { apply Hmax. apply list_elem_of_lookup_1 in HM as [j Hj].
    eapply list_elem_of_lookup_2. by apply fillna_lookup_notna. }
  assert (m ≠ Inf true) as Hm.
  { intros ->. apply Htop. apply fleb_antisym; [done|by apply fleb_inf_bot]. }
  apply fillna_lookup_inv in Hk; [|done].
  assert (m = Series.max crec) as ->.
  { apply fleb_antisym; [|done]. apply HMmax; [by eapply list_elem_of_lookup_2|].
    by destruct (fleb_notna _ _ HMm). }
  exists k. split_and!; [done|done|].
  intros j g Hj Hg Hna. apply (Hfirst j g Hj). by apply fillna_lookup_notna.
Qed.

Lemma nanargmin_spec crec :
  Series.dropna crec ≠ [] → Series.min crec ≠ Inf false →
  ∃ i, Series.nanargmin crec = inr (Some i)
     ∧ crec !! i = Some (Series.min crec)
     ∧ ∀ j g, j < i → crec !! j = Some g → g ≠ NaN → fltb (Series.min crec) g = true.
Proof.
  intros Hne Hbot. destruct (min_spec crec Hne) as [[HM HMna] HMmin].
  unfold Series.nanargmin.
  pose proof (fillna_Forall (Inf false) crec) as Hfill.
  destruct (Series.fillna (Inf false) crec) as [|x r] eqn:E.
  { destruct crec; [done|discriminate E]. }
  rewrite decide_False by done.
  destruct (argbest_spec (λ x best, fltb x best) (λ y m, fleb m y)
              fleb_refl (λ x y z H1 H2, fleb_trans z y x H2 H1)
              (λ x b, fltb_fleb x b)
              (λ x b Hx Hb, fltb_false_fleb x b Hx Hb)
              (λ y b x H1 H2, fltb_fleb_trans x b y H2 H1) x r)
    as (m & Hk & Hmin & Hfirst); [by apply Hfill|].
  fold Series.argmin_from in Hk, Hfirst.
  set (k := Series.argmin_from 0 x 1 r) in *. rewrite <-E in Hk, Hmin, Hfirst.
  assert (fleb m (Series.min crec) = true) as HMm.
  { apply Hmin. apply list_elem_of_lookup_1 in HM as [j Hj].
    eapply list_elem_of_lookup_2. by apply fillna_lookup_notna. }
  assert (m ≠ Inf false) as Hm.
  { intros ->. apply Hbot. apply fleb_antisym; [by apply fleb_inf_top|done]. }
  apply fillna_lookup_inv in Hk; [|done].
  assert (m = Series.min crec) as ->.
  { apply fleb_antisym; [done|]. apply HMmin; [by eapply list_elem_of_lookup_2|].
    by destruct (fleb_notna _ _ HMm). }
  exists k. split_and!; [done|done|].
  intros j g Hj Hg Hna. apply (Hfirst j g Hj). by apply fillna_lookup_notna.
Qed.

Lemma filter_label_notin (idx : list nat) anio lbl :
  lbl ∉ idx → filter (λ p, p.1 = lbl) (zip idx anio) = [].
Proof.
  revert anio. induction idx as [|a idx IH]; intros anio Hn; [done|].
  apply not_elem_of_cons in Hn as [Hne Hn]. destruct anio as [|c anio]; [done|].
  simpl. rewrite filter_cons_False by (simpl; congruence). by apply IH.
Qed.

(** With unique labels, [loc] on the label of row [i] reads row [i]. *)
Lemma loc_scalar_lookup (idx : list nat) anio i lbl y :
  NoDup idx → idx !! i = Some lbl → anio !! i = Some y →
  loc_scalar idx anio (Some lbl) = inr y.
Proof.
  unfold loc_scalar. revert anio i. induction idx as [|a idx IH]; intros anio i Hnd Hl Hy; [done|].
  destruct anio as [|c anio]; [done|]. apply NoDup_cons in Hnd as [Ha Hnd].
  destruct i as [|i]; simpl in *.
  - simplify_eq. rewrite filter_cons_True by done.
    by rewrite filter_label_notin.
  - rewrite filter_cons_False.
    + by eapply IH.
    + simpl. intros ->. apply Ha. by eapply list_elem_of_lookup_2.
Qed.

Lemma py_int_num (y : Z) : py_int (num y) = inr y.
Proof. unfold py_int, num. simpl. by rewrite Z.quot_1_r. Qed.

End Reporter.

(** C7, as stated, fails on two working tables whose growth column has a
    non-missing entry.  With gdp = [0, 5] the growth column is
    [missing, +inf]; [idxmin] fills the missing entry with +inf and stops
    at row 0, so the year returned for the minimum is the one of the row
    whose growth is missing.  With years that are not numbers the lookup
    raises ValueError instead of returning a year. *)
Lemma anio_extremo_counterexample :
  (crecimiento [num 0; num 5] = [NaN; Inf false]
   ∧ anio_min [0; 1] [num 2000; num 2001] (crecimiento [num 0; num 5]) = inr 2000%Z)
  ∧ (crecimiento [num 100; num 110] = [NaN; num 10]
     ∧ anio_max [0; 1] [NaN; NaN] (crecimiento [num 100; num 110]) = inl ValueError).
Proof. split_and!; fdecide. Qed.

(** C7, amended.  On a working table (unique row labels, columns as long
    as the index) whose growth column has a non-missing entry: if the
    maximum growth is not -inf, line 140 applies [int] to the year cell of
    the first row, in table order, that holds the maximum growth, and so
    returns that year whenever the cell holds an integer; likewise line
    141 for the minimum growth when it is not +inf.  For growth
    [missing, 5, 5, -3] the maximum-growth year is that of the first 5. *)
Theorem anio_max_min_first_occurrence (idx : list nat) (anio crec : list float) :
  NoDup idx → length anio = length idx → length crec = length idx →
  Series.dropna crec ≠ [] →
  (crec_max crec ≠ Inf true →
   ∃ i, crec !! i = Some (crec_max crec)
      ∧ (∀ g, g ∈ crec → g ≠ NaN → fleb g (crec_max crec) = true)
      ∧ (∀ j g, j < i → crec !! j = Some g → g ≠ NaN → fltb g (crec_max crec) = true)
      ∧ anio_max idx anio crec = py_int (anio !!! i)
      ∧ (∀ y : Z, anio !! i = Some (num y) → anio_max idx anio crec = inr y))
  ∧ (crec_min crec ≠ Inf false →
     ∃ i, crec !! i = Some (crec_min crec)
        ∧ (∀ g, g ∈ crec → g ≠ NaN → fleb (crec_min crec) g = true)
        ∧ (∀ j g, j < i → crec !! j = Some g → g ≠ NaN → fltb (crec_min crec) g = true)
        ∧ anio_min idx anio crec = py_int (anio !!! i)
        ∧ (∀ y : Z, anio !! i = Some (num y) → anio_min idx anio crec = inr y))
  ∧ anio_max [10; 11; 12; 13] [num 2001; num 2002; num 2003; num 2004]
             [NaN; num 5; num 5; num (-3)] = inr 2002%Z.
Proof.
  intros Hnd Hla Hlc Hne. split_and!.
  - intros Htop. destruct (nanargmax_spec crec Hne Htop) as (i & Harg & Hi & Hfirst).
    destruct (max_spec crec Hne) as [_ Hmax].
    assert (i < length idx) as Hlt by (rewrite <-Hlc; by eapply lookup_lt_Some).
    destruct (lookup_lt_is_Some_2 idx i Hlt) as [lbl Hlbl].
    destruct (lookup_lt_is_Some_2 anio i) as [y Hy]; [lia|].
    assert (anio_max idx anio crec = py_int (anio !!! i)) as Hres.
    { unfold anio_max, Series.idxmax. rewrite Harg, Hlbl.
      rewrite (loc_scalar_lookup idx anio i lbl y) by done.
      by rewrite (list_lookup_total_correct _ _ _ Hy). }
    exists i. split_and!; [done|done|done|done|].
    intros z Hz. rewrite Hres, (list_lookup_total_correct _ _ _ Hz). apply py_int_num.
  - intros Hbot. destruct (nanargmin_spec crec Hne Hbot) as (i & Harg & Hi & Hfirst).
    destruct (min_spec crec Hne) as [_ Hmin].
    assert (i < length idx) as Hlt by (rewrite <-Hlc; by eapply lookup_lt_Some).
    destruct (lookup_lt_is_Some_2 idx i Hlt) as [lbl Hlbl].
    destruct (lookup_lt_is_Some_2 anio i) as [y Hy]; [lia|].
    assert (anio_min idx anio crec = py_int (anio !!! i)) as Hres.
    { unfold anio_min, Series.idxmin. rewrite Harg, Hlbl.
      rewrite (loc_scalar_lookup idx anio i lbl y) by done.
      by rewrite (list_lookup_total_correct _ _ _ Hy). }
    exists i. split_and!; [done|done|done|done|].
    intros z Hz. rewrite Hres, (list_lookup_total_correct _ _ _ Hz). apply py_int_num.
  - fdecide.
Qed.

Lemma anio_max_min_first_occurrence_witness :
  (crec_max Ejemplos.crec_empate ≠ Inf true →
   ∃ i, Ejemplos.crec_empate !! i = Some (crec_max Ejemplos.crec_empate)
      ∧ (∀ g, g ∈ Ejemplos.crec_empate → g ≠ NaN → fleb g (crec_max Ejemplos.crec_empate) = true)
      ∧ (∀ j g, j < i → Ejemplos.crec_empate !! j = Some g → g ≠ NaN →
                fltb g (crec_max Ejemplos.crec_empate) = true)
      ∧ anio_max Ejemplos.idx_empate Ejemplos.anio_empate Ejemplos.crec_empate
        = py_int (Ejemplos.anio_empate !!! i)
      ∧ (∀ y : Z, Ejemplos.anio_empate !! i = Some (num y) →
           anio_max Ejemplos.idx_empate Ejemplos.anio_empate Ejemplos.crec_empate = inr y))
  ∧ (crec_min Ejemplos.crec_empate ≠ Inf false →
     ∃ i, Ejemplos.crec_empate !! i = Some (crec_min Ejemplos.crec_empate)
        ∧ (∀ g, g ∈ Ejemplos.crec_empate → g ≠ NaN → fleb (crec_min Ejemplos.crec_empate) g = true)
        ∧ (∀ j g, j < i → Ejemplos.crec_empate !! j = Some g → g ≠ NaN →
                  fltb (crec_min Ejemplos.crec_empate) g = true)
        ∧ anio_min Ejemplos.idx_empate Ejemplos.anio_empate Ejemplos.crec_empate
          = py_int (Ejemplos.anio_empate !!! i)
        ∧ (∀ y : Z, Ejemplos.anio_empate !! i = Some (num y) →
             anio_min Ejemplos.idx_empate Ejemplos.anio_empate Ejemplos.crec_empate = inr y))
  ∧ anio_max [10; 11; 12; 13] [num 2001; num 2002; num 2003; num 2004]
             [NaN; num 5; num 5; num (-3)] = inr 2002%Z.
Proof.
  apply (anio_max_min_first_occurrence
           Ejemplos.idx_empate Ejemplos.anio_empate Ejemplos.crec_empate).
  - apply (bool_decide_unpack _). vm_compute. exact I.
  - reflexivity.
  - reflexivity.
  - vm_compute. discriminate.
Defined.

Example anio_empate_ex :
  anio_max Ejemplos.idx_empate Ejemplos.anio_empate Ejemplos.crec_empate = inr 2002%Z
  ∧ anio_min Ejemplos.idx_empate Ejemplos.anio_empate Ejemplos.crec_empate = inr 2004%Z.
Proof. split; fdecide. Qed.

(** ** Objects the script does not write *)

Section Keeps.

Context {A B : Type}.
Implicit Types D : gset nat.

Lemma bind_run (m : py A) (k : A → py B) w :
  (m ≫= k) w = match m w with
               | (inl e, w') => (inl e, w')
               | (inr a, w') => k a w'
               end.
Proof. done. Qed.

Lemma keeps_ret D (a : A) (Φ : A → Prop) : Φ a → keeps D (mret a) Φ.
Proof. intros Ha w _. split; [done|]. by intros ? [= <-]. Qed.

Lemma keeps_raise D line e (Φ : A → Prop) : keeps D (raise line e) Φ.
Proof. by intros w _. Qed.

Lemma keeps_at_line D line (r : exn + A) : keeps D (at_line line r) (λ _, True).
Proof. intros w _. by destruct r. Qed.

Lemma keeps_weaken D (m : py A) (Φ Ψ : A → Prop) :
  (∀ a, Φ a → Ψ a) → keeps D m Φ → keeps D m Ψ.
Proof. intros HΦ Hm w HD. destruct (Hm w HD) as [H1 H2]. split; [done|]. auto. Qed.

Lemma keeps_bind D (m : py A) (k : A → py B) (Φ : A → Prop) (Ψ : B → Prop) :
  keeps D m Φ → (∀ a, Φ a → keeps D (k a) Ψ) → keeps D (m ≫= k) Ψ.
Proof.
  intros Hm Hk w HD. rewrite bind_run.
  destruct (Hm w HD) as [Hfr Hval]. destruct (m w) as [[e|a] w1]; simpl in *.
  - split; [done|]. by intros.
  - assert (D ⊆ dom (frames w1)) as HD1.
    { intros r Hr. apply elem_of_dom. rewrite Hfr by done. apply elem_of_dom. by apply HD. }
    destruct (Hk a (Hval a eq_refl) w1 HD1) as [Hfr1 Hval1].
    split; [|done]. intros r Hr. by rewrite Hfr1, Hfr.
Qed.

End Keeps.

Section KeepsPrimitives.

Implicit Types D : gset nat.

Lemma keeps_print D ev : keeps D (print ev) (λ _, True).
Proof. by intros w _. Qed.

Lemma keeps_deref D line r : keeps D (deref line r) (λ _, True).
Proof. intros w _. unfold deref. by destruct (frames w !! r). Qed.

Lemma keeps_new D d : keeps D (new d) (λ r, r ∉ D).
Proof.
  intros w HD. pose proof (is_fresh (dom (frames w))) as Hfresh. split; simpl.
  - intros r Hr. apply lookup_insert_ne. intros <-. by apply Hfresh, HD.
  - intros a [= <-] Ha. by apply Hfresh, HD.
Qed.

Lemma keeps_store D r d : r ∉ D → keeps D (store r d) (λ _, True).
Proof.
  intros Hr w _. split; [|done]. simpl. intros l Hl.
  apply lookup_insert_ne. by intros <-.
Qed.

Lemma keeps_getitem D line r c : keeps D (getitem line r c) (λ _, True).
Proof.
  eapply keeps_bind; [apply keeps_deref|]. intros d _.
  destruct (columns d !! c); [by apply keeps_ret|apply keeps_raise].
Qed.

Lemma keeps_getitem_float64 D line r c : keeps D (getitem_float64 line r c) (λ _, True).
Proof.
  eapply keeps_bind; [apply keeps_getitem|]. intros col _. apply keeps_at_line.
Qed.

Lemma keeps_getitem_mask D line r mask : keeps D (getitem_mask line r mask) (λ c, c ∉ D).
Proof.
  eapply keeps_bind; [apply keeps_deref|]. intros d _.
  case_decide; [apply keeps_new|apply keeps_raise].
Qed.

Lemma keeps_copy D line r : keeps D (copy line r) (λ c, c ∉ D).
Proof. eapply keeps_bind; [apply keeps_deref|]. intros d _. apply keeps_new. Qed.

Lemma keeps_setitem D line r c v : r ∉ D → keeps D (setitem line r c v) (λ _, True).
Proof.
  intros Hr. eapply keeps_bind; [apply keeps_deref|]. intros d _.
  case_decide; [by apply keeps_store|apply keeps_raise].
Qed.

Lemma keeps_plot D line kind r : keeps D (plot line kind r) (λ _, True).
Proof. eapply keeps_bind; [apply keeps_deref|]. intros d _. apply keeps_print. Qed.

End KeepsPrimitives.

Create HintDb keeps discriminated.

#[local] Hint Resolve keeps_print keeps_deref keeps_getitem keeps_getitem_float64
  keeps_getitem_mask keeps_copy keeps_plot keeps_at_line : keeps.

(** One statement of a stage: a call that keeps [D], then the rest. *)
Ltac keeps_step :=
  first
    [ apply keeps_ret; done
    | eapply keeps_bind; [solve [eauto with keeps]|intros ? ?] ].

Section KeepsScript.

Variable str_to_float : string → float.
Implicit Types D : gset nat.

Lemma keeps_filtrar D df : keeps D (filtrar df) (λ c, c ∉ D).
Proof. unfold filtrar. repeat keeps_step. Qed.

Lemma keeps_limpieza D colombia :
  colombia ∉ D → keeps D (limpieza str_to_float colombia) (λ _, True).
Proof.
  intros Hc. unfold limpieza.
  keeps_step. eapply keeps_bind; [by apply keeps_setitem|intros _ _].
  keeps_step. by apply keeps_setitem.
Qed.

Lemma keeps_tendencia D colombia :
  keeps D (tendencia_y_dispersion colombia) (λ _, True).
Proof. unfold tendencia_y_dispersion. repeat keeps_step. Qed.

Lemma keeps_tasa D colombia :
  colombia ∉ D → keeps D (tasa_de_crecimiento colombia) (λ _, True).
Proof. intros Hc. unfold tasa_de_crecimiento. keeps_step. by apply keeps_setitem. Qed.

Lemma keeps_visualizaciones D colombia :
  keeps D (visualizaciones colombia) (λ _, True).
Proof. unfold visualizaciones. repeat keeps_step. Qed.

Lemma keeps_conclusiones D colombia m :
  keeps D (conclusiones_automaticas colombia m) (λ _, True).
Proof. unfold conclusiones_automaticas. repeat keeps_step. Qed.

Lemma keeps_main D df : keeps D (main str_to_float df) (λ _, True).
Proof.
  unfold main. do 3 keeps_step.
  eapply keeps_bind; [apply keeps_filtrar|intros colombia Hc].
  eapply keeps_bind; [by apply keeps_limpieza|intros _ _].
  eapply keeps_bind; [by apply keeps_tendencia|intros m _].
  eapply keeps_bind; [by apply keeps_tasa|intros _ _].
  eapply keeps_bind; [by apply keeps_visualizaciones|intros _ _].
  eapply keeps_bind; [by apply keeps_conclusiones|intros c _].
  by apply keeps_ret.
Qed.

End KeepsScript.

(** ** Running the stages *)

Section Run.

Lemma bind_ok {A B} (m : py A) (k : A → py B) w a w' :
  m w = (inr a, w') → (m ≫= k) w = k a w'.
Proof. intros H. by rewrite bind_run, H. Qed.

Lemma bind_err {A B} (m : py A) (k : A → py B) w e w' :
  m w = (inl e, w') → (m ≫= k) w = (inl e, w').
Proof. intros H. by rewrite bind_run, H. Qed.

Lemma deref_run line r w d : frames w !! r = Some d → deref line r w = (inr d, w).
Proof. intros H. unfold deref. by rewrite H. Qed.

Lemma getitem_run line r c w d v :
  frames w !! r = Some d → columns d !! c = Some v →
  getitem line r c w = (inr v, w).
Proof.
  intros Hd Hc. unfold getitem. erewrite bind_ok by by apply deref_run.
  by rewrite Hc.
Qed.

Lemma as_float64_Num (v : list float) : as_float64 (Num <$> v) = inr v.
Proof. induction v as [|x v IH]; [done|]. rewrite fmap_cons. simpl. by rewrite IH. Qed.

Lemma getitem_float64_run line r c w d v :
  frames w !! r = Some d → columns d !! c = Some (Num <$> v) →
  getitem_float64 line r c w = (inr v, w).
Proof.
  intros Hd Hc. unfold getitem_float64. erewrite bind_ok by by eapply getitem_run.
  by rewrite as_float64_Num.
Qed.

Lemma setitem_run line r c v w d :
  frames w !! r = Some d → length v = length (index d) →
  setitem line r c v w
  = (inr (), {| frames := <[r := {| index := index d;
                                     columns := <[c := Num <$> v]> (columns d) |}]> (frames w);
                stdout := stdout w |}).
Proof.
  intros Hd Hlen. unfold setitem. erewrite bind_ok by by apply deref_run.
  by rewrite decide_True.
Qed.

Lemma new_run d w :
  new d w = (inr (fresh (dom (frames w))),
             {| frames := <[fresh (dom (frames w)) := d]> (frames w); stdout := stdout w |}).
Proof. done. Qed.

Lemma getitem_mask_run line r mask w d :
  frames w !! r = Some d → length mask = length (index d) →
  getitem_mask line r mask w = new (select mask d) w.
Proof.
  intros Hd Hlen. unfold getitem_mask. erewrite bind_ok by by apply deref_run.
  by rewrite decide_True.
Qed.

Lemma copy_run line r w d : frames w !! r = Some d → copy line r w = new d w.
Proof. intros Hd. unfold copy. by erewrite bind_ok by by apply deref_run. Qed.

Lemma mask_filter_length {A B} (mask : list bool) (l : list A) (k : list B) :
  length l = length k → length (mask_filter mask l) = length (mask_filter mask k).
Proof.
  revert l k. induction mask as [|b mask IH]; intros [|x l] [|y k] Hlen; simpl in *; try done.
  destruct b; simpl; auto.
Qed.

Lemma mask_filter_sublist {A} (mask : list bool) (l : list A) : mask_filter mask l `sublist_of` l.
Proof.
  revert l. induction mask as [|b mask IH]; intros [|x l]; simpl; try done.
  - apply sublist_nil_l.
  - destruct b; [by apply sublist_skip|by apply sublist_cons].
Qed.

(** The rows kept by the mask of line 29 are those whose country cell is
    the text, in their order. *)
Lemma mask_filter_eq_mask {A} (paises : list cell) (text : string) (l : list A) :
  mask_filter (eq_mask paises text) l
  = (filter (λ p, p.2 = Str text) (zip l paises)).*1.
Proof.
  revert l. induction paises as [|c paises IH]; intros [|x l]; simpl; try done.
  destruct c as [s|y]; simpl.
  - case_bool_decide as Hs.
    + subst. rewrite filter_cons_True by done. simpl. by rewrite IH.
    + rewrite filter_cons_False by (simpl; congruence). apply IH.
  - rewrite filter_cons_False by done. apply IH.
Qed.

Lemma mask_filter_none {A} (paises : list cell) (text : string) (l : list A) :
  Forall (λ c, c ≠ Str text) paises → mask_filter (eq_mask paises text) l = [].
Proof.
  intros Hall. revert l. induction Hall as [|c paises Hc Hall IH]; intros [|x l]; try done.
  simpl. destruct c as [s|y]; [|by apply IH].
  rewrite bool_decide_eq_false_2 by congruence. apply IH.
Qed.

Lemma eq_mask_length (paises : list cell) (text : string) :
  length (eq_mask paises text) = length paises.
Proof. unfold eq_mask. by rewrite length_fmap. Qed.

(** Line 71 stores, in the working table, the growth column computed from
    its gdp column. *)
Lemma tasa_de_crecimiento_run colombia w col pib :
  frames w !! colombia = Some col →
  columns col !! "PIB (USD)" = Some (Num <$> pib) →
  length pib = length (index col) →
  tasa_de_crecimiento colombia w
  = (inr (), {| frames := <[colombia := {| index := index col;
                                           columns := <["Crecimiento (%)" := Num <$> crecimiento pib]>
                                                        (columns col) |}]> (frames w);
                stdout := stdout w |}).
Proof.
  intros Hc Hp Hlen. unfold tasa_de_crecimiento.
  erewrite bind_ok by by eapply getitem_float64_run.
  apply setitem_run; [done|]. by rewrite crecimiento_length.
Qed.

(** Lines 138 to 148 return what [anio_max] and [anio_min] find in the
    growth and year columns of the working table, and stop at the line of
    the lookup that raises. *)
Lemma conclusiones_automaticas_run colombia m w col crec anio :
  frames w !! colombia = Some col →
  columns col !! "Crecimiento (%)" = Some (Num <$> crec) →
  columns col !! "Año" = Some (Num <$> anio) →
  (conclusiones_automaticas colombia m w).1
  = match anio_max (index col) anio crec, anio_min (index col) anio crec with
    | inl e, _ => inl (140, e)
    | inr _, inl e => inl (141, e)
    | inr ymax, inr ymin => inr (mkConclusiones (crec_max crec) (crec_min crec) ymax ymin)
    end.
Proof.
  intros Hc Hg Hy. unfold conclusiones_automaticas.
  do 2 (erewrite bind_ok by by eapply getitem_float64_run).
  erewrite bind_ok by by apply deref_run.
  do 2 (erewrite bind_ok by by eapply getitem_float64_run).
  destruct (anio_max (index col) anio crec) as [e|ymax]; [done|].
  erewrite bind_ok by done.
  erewrite bind_ok by by apply deref_run.
  do 2 (erewrite bind_ok by by eapply getitem_float64_run).
  destruct (anio_min (index col) anio crec) as [e|ymin]; [done|].
  done.
Qed.

End Run.

Section RunScript.

Variable str_to_float : string → float.

Lemma print_run ev w :
  print ev w = (inr (), {| frames := frames w; stdout := stdout w ++ [ev] |}).
Proof. done. Qed.

Lemma to_numeric_length col : length (to_numeric str_to_float col) = length col.
Proof. unfold to_numeric. by rewrite length_fmap. Qed.

Lemma select_lookup mask d c v :
  columns d !! c = Some v → columns (select mask d) !! c = Some (mask_filter mask v).
Proof. intros H. unfold select. simpl. by rewrite lookup_fmap, H. Qed.

(** Line 29 on a table that has the country column: no exception; the
    result is a new object holding the selected rows. *)
Lemma filtrar_run df w d paises :
  frames w !! df = Some d →
  columns d !! "Country Name" = Some paises →
  length paises = length (index d) →
  ∃ colombia w1,
    filtrar df w = (inr colombia, w1)
    ∧ frames w !! colombia = None
    ∧ frames w1 !! colombia = Some (select (eq_mask paises "Colombia") d)
    ∧ stdout w1 = stdout w ++ [EvText "===== DATOS DE COLOMBIA =====";
                               EvFrame (head (select (eq_mask paises "Colombia") d))].
Proof.
  intros Hd Hc Hlen. set (sel := select (eq_mask paises "Colombia") d).
  set (tmp := fresh (dom (frames w))).
  set (colombia := fresh (dom (<[tmp := sel]> (frames w)))).
  assert (colombia ≠ tmp) as Hne.
  { intros E. apply (is_fresh (dom (<[tmp := sel]> (frames w)))).
    fold colombia. rewrite E, dom_insert. set_solver. }
  assert (frames w !! colombia = None) as Hnew.
  { apply not_elem_of_dom. intros Hin.
    apply (is_fresh (dom (<[tmp := sel]> (frames w)))). fold colombia.
    rewrite dom_insert. set_solver. }
  exists colombia, {| frames := <[colombia := sel]> (<[tmp := sel]> (frames w));
                      stdout := stdout w ++ [EvText "===== DATOS DE COLOMBIA =====";
                                             EvFrame (head sel)] |}.
  split_and!; [|done|simpl; by rewrite lookup_insert_eq|done].
  unfold filtrar. erewrite bind_ok by by eapply getitem_run.
  erewrite bind_ok.
  2:{ erewrite getitem_mask_run; [apply new_run|done|by rewrite eq_mask_length]. }
  fold sel tmp. erewrite bind_ok.
  2:{ erewrite copy_run; [apply new_run|]. simpl. apply lookup_insert_eq. }
  simpl. fold colombia. rewrite bind_run, print_run.
  erewrite bind_ok by (apply deref_run; simpl; apply lookup_insert_eq).
  rewrite bind_run, print_run. simpl. by rewrite <-app_assoc.
Qed.

(** Lines 40 and 41 on a table that has the two text columns. *)
Lemma limpieza_run colombia w col ys vs :
  frames w !! colombia = Some col →
  columns col !! "Year" = Some ys → columns col !! "Value" = Some vs →
  length ys = length (index col) → length vs = length (index col) →
  ∃ w1,
    limpieza str_to_float colombia w = (inr (), w1)
    ∧ stdout w1 = stdout w
    ∧ frames w1 !! colombia
      = Some {| index := index col;
                columns := <["PIB (USD)" := Num <$> to_numeric str_to_float vs]>
                             (<["Año" := Num <$> to_numeric str_to_float ys]> (columns col)) |}.
Proof.
  intros Hc Hy Hv Hly Hlv. eexists. split_and!.
  - unfold limpieza. erewrite bind_ok by by eapply getitem_run.
    erewrite bind_ok by (apply setitem_run; [done|by rewrite to_numeric_length]).
    erewrite bind_ok.
    2:{ eapply getitem_run; [simpl; apply lookup_insert_eq|].
        simpl. by rewrite lookup_insert_ne. }
    apply setitem_run; [simpl; apply lookup_insert_eq|].
    simpl. by rewrite to_numeric_length.
  - done.
  - simpl. by rewrite lookup_insert_eq.
Qed.

Lemma mode_all_nan (pib : list float) : Forall (λ x, x = NaN) pib → Series.mode pib = [].
Proof.
  intros Hall. unfold Series.mode.
  replace (Series.dropna pib) with (@nil float); [done|].
  symmetry. unfold Series.dropna. induction Hall as [|x l -> Hl IH]; [done|].
  by rewrite filter_cons_False by (by intros ?).
Qed.

(** Line 50 on a column without any valid entry: the lines before it
    print nothing, and the mode lookup raises. *)
Lemma tendencia_run_nan colombia w col pib :
  frames w !! colombia = Some col →
  columns col !! "PIB (USD)" = Some (Num <$> pib) →
  Forall (λ x, x = NaN) pib →
  tendencia_y_dispersion colombia w = (inl (50, KeyError), w).
Proof.
  intros Hc Hp Hall. unfold tendencia_y_dispersion.
  do 2 (erewrite bind_ok by by eapply getitem_float64_run).
  erewrite bind_ok by by eapply getitem_float64_run.
  apply bind_err. unfold moda. by rewrite mode_all_nan.
Qed.

(** The script on a table that has the three columns, when no value of
    the selected rows is a number: it stops at line 50, after the two
    previews. *)
Lemma main_run_nan df w d paises ys vs :
  frames w !! df = Some d → wf d →
  columns d !! "Country Name" = Some paises →
  columns d !! "Year" = Some ys → columns d !! "Value" = Some vs →
  Forall (λ x, x = NaN)
    (to_numeric str_to_float (mask_filter (eq_mask paises "Colombia") vs)) →
  (main str_to_float df w).1 = inl (50, KeyError)
  ∧ stdout (main str_to_float df w).2
    = stdout w ++ [EvText "===== PRIMERAS FILAS DEL DATASET GLOBAL =====";
                   EvFrame (head d);
                   EvText "===== DATOS DE COLOMBIA =====";
                   EvFrame (head (select (eq_mask paises "Colombia") d))].
Proof.
  intros Hd [Hnd Hwf] Hp Hy Hv Hall.
  pose proof (Hwf _ _ Hp) as Hlp. pose proof (Hwf _ _ Hy) as Hly.
  pose proof (Hwf _ _ Hv) as Hlv. simpl in Hlp, Hly, Hlv.
  unfold main. rewrite bind_run, print_run.
  erewrite bind_ok by by apply deref_run.
  rewrite bind_run, print_run.
  simpl.
  match goal with
  | |- context [(filtrar df ≫= _) ?w0] =>
      destruct (filtrar_run df w0 d paises) as (colombia & w1 & Hrun & _ & Hcol & Hout);
      [exact Hd|exact Hp|exact Hlp|]
  end.
  erewrite bind_ok by exact Hrun.
  edestruct (limpieza_run colombia w1) as (w2 & Hrun2 & Hout2 & Hcol2);
    [exact Hcol|by apply select_lookup|by apply select_lookup| | |].
  { simpl. by apply mask_filter_length. }
  { simpl. by apply mask_filter_length. }
  erewrite bind_ok by exact Hrun2.
  erewrite bind_err.
  2:{ eapply tendencia_run_nan; [exact Hcol2| |exact Hall]. simpl. apply lookup_insert_eq. }
  split; [done|]. simpl. rewrite Hout2, Hout. simpl. by rewrite <-!app_assoc.
Qed.

End RunScript.

(** C9.  Whatever the source table and wherever the script stops, every
    object that exists after loading, the raw table among them, is at
    the end what it was: the script writes only to objects it created.
    Line 29 creates the working table as a new object, distinct from the
    raw table, holding exactly the rows whose country cell is the target
    name, index and every column filtered alike and in their original
    order, and leaves the raw table as it was. *)
Theorem raw_table_unchanged (str_to_float : string → float) (df : nat) (w : world) :
  (∀ r d, frames w !! r = Some d → frames (main str_to_float df w).2 !! r = Some d)
  ∧ (∀ d paises,
       frames w !! df = Some d →
       columns d !! "Country Name" = Some paises →
       length paises = length (index d) →
       ∃ colombia w1,
         filtrar df w = (inr colombia, w1)
         ∧ colombia ≠ df
         ∧ frames w !! colombia = None
         ∧ frames w1 !! df = Some d
         ∧ frames w1 !! colombia = Some (select (eq_mask paises "Colombia") d)
         ∧ index (select (eq_mask paises "Colombia") d)
           = (filter (λ p, p.2 = Str "Colombia") (zip (index d) paises)).*1
         ∧ index (select (eq_mask paises "Colombia") d) `sublist_of` index d
         ∧ (∀ c v, columns d !! c = Some v →
              columns (select (eq_mask paises "Colombia") d) !! c
              = Some ((filter (λ p, p.2 = Str "Colombia") (zip v paises)).*1)
              ∧ (filter (λ p, p.2 = Str "Colombia") (zip v paises)).*1 `sublist_of` v)).
Proof.
  split.
  - intros r d Hr.
    destruct (keeps_main str_to_float (dom (frames w)) df w) as [Hfr _]; [done|].
    rewrite Hfr; [done|]. by apply elem_of_dom.
  - intros d paises Hd Hp Hlen.
    destruct (filtrar_run df w d paises Hd Hp Hlen) as (colombia & w1 & Hrun & Hnew & Hcol & _).
    exists colombia, w1. split_and!; [done| |done| |done| | |].
    + intros ->. by rewrite Hd in Hnew.
    + destruct (keeps_filtrar (dom (frames w)) df w) as [Hfr _]; [done|].
      rewrite Hrun in Hfr. simpl in Hfr. rewrite Hfr; [done|]. by apply elem_of_dom.
    + apply mask_filter_eq_mask.
    + apply mask_filter_sublist.
    + intros c v Hv. rewrite <-mask_filter_eq_mask. split.
      * by apply select_lookup.
      * apply mask_filter_sublist.
Qed.

(** C4, as stated, fails: on a source table without a row of the
    target country the script ends in an uncaught KeyError, raised by the
    mode lookup of line 50. *)
Lemma pais_ausente_counterexample :
  Forall (λ c, c ≠ Str "Colombia") [Str "Peru"; Str "Peru"; Str "Chile"]
  ∧ (main Ejemplos.parse_decimal 0 (Ejemplos.loaded Ejemplos.df_sin_colombia)).1
    = inl (50, KeyError).
Proof. split; [by repeat constructor|]. vm_compute. reflexivity. Qed.

(** C4, amended.  When no row of the source table matches the target
    country, line 29 yields an empty working table without an error, and
    the mean and the median of its gdp column are NaN; the mode lookup
    of line 50 raises KeyError, which nothing catches, and the script
    stops there.  Nothing but the two table previews has been printed: no
    statistic, no growth or conclusion, and no message about the empty
    result. *)
Theorem pais_ausente_keyerror (str_to_float : string → float) (df : nat) (w : world)
    (d : DataFrame) (paises ys vs : list cell) :
  frames w !! df = Some d → wf d →
  columns d !! "Country Name" = Some paises →
  columns d !! "Year" = Some ys → columns d !! "Value" = Some vs →
  Forall (λ c, c ≠ Str "Colombia") paises →
  (∃ colombia w1 t,
     filtrar df w = (inr colombia, w1)
     ∧ frames w1 !! colombia = Some t
     ∧ index t = []
     ∧ map_Forall (λ _ v, v = []) (columns t))
  ∧ media [] = NaN ∧ mediana [] = NaN ∧ moda [] = inl KeyError
  ∧ (main str_to_float df w).1 = inl (50, KeyError)
  ∧ stdout (main str_to_float df w).2
    = stdout w ++ [EvText "===== PRIMERAS FILAS DEL DATASET GLOBAL =====";
                   EvFrame (head d);
                   EvText "===== DATOS DE COLOMBIA =====";
                   EvFrame (head (select (eq_mask paises "Colombia") d))].
Proof.
  intros Hd Hwf Hp Hy Hv Hnone.
  assert (length paises = length (index d)) as Hlen by (destruct Hwf as [_ Hwf]; apply (Hwf _ _ Hp)).
  split_and!; [|done|done|done|..].
  - destruct (filtrar_run df w d paises Hd Hp Hlen) as (colombia & w1 & Hrun & _ & Hcol & _).
    exists colombia, w1, (select (eq_mask paises "Colombia") d).
    split_and!; [done|done|by apply mask_filter_none|].
    intros c v. unfold select. simpl. rewrite lookup_fmap.
    destruct (columns d !! c) as [v0|]; [|done]. simpl. intros [= <-].
    by apply mask_filter_none.
  - eapply main_run_nan; [done..|]. by rewrite mask_filter_none.
  - eapply main_run_nan; [done..|]. by rewrite mask_filter_none.
Qed.

Lemma pais_ausente_keyerror_witness :
  Forall (λ c, c ≠ Str "Colombia") [Str "Peru"; Str "Peru"; Str "Chile"]
  ∧ (main Ejemplos.parse_decimal 0 (Ejemplos.loaded Ejemplos.df_sin_colombia)).1
    = inl (50, KeyError).
Proof.
  assert (Forall (λ c, c ≠ Str "Colombia") [Str "Peru"; Str "Peru"; Str "Chile"]) as Hnone
    by by repeat constructor.
  split; [exact Hnone|].
  apply (pais_ausente_keyerror Ejemplos.parse_decimal 0
           (Ejemplos.loaded Ejemplos.df_sin_colombia) Ejemplos.df_sin_colombia
           [Str "Peru"; Str "Peru"; Str "Chile"]
           [Str "1960"; Str "1961"; Str "1960"]
           [Str "2571"; Str "2899"; Str "4110"]);
    [reflexivity|apply (bool_decide_unpack _); vm_compute; exact I
    |reflexivity|reflexivity|reflexivity|exact Hnone].
Defined.

Section NoValidEntry.

Lemma dropna_all_nan (pib : list float) :
  Forall (λ x, x = NaN) pib → Series.dropna pib = [].
Proof.
  intros Hall. unfold Series.dropna. induction Hall as [|x l -> Hl IH]; [done|].
  by rewrite filter_cons_False by (by intros ?).
Qed.

End NoValidEntry.

(** C10.  When every Value entry of the working table fails numeric
    coercion, the gdp column has no valid entry: mean, median, variance
    and standard deviation are NaN, but the mode result is empty and
    taking its first element raises KeyError, so the script stops at line
    50. *)
Theorem valores_no_numericos_keyerror (str_to_float : string → float) (df : nat)
    (w : world) (d : DataFrame) (paises ys vs : list cell) :
  frames w !! df = Some d → wf d →
  columns d !! "Country Name" = Some paises →
  columns d !! "Year" = Some ys → columns d !! "Value" = Some vs →
  mask_filter (eq_mask paises "Colombia") vs ≠ [] →
  Forall (λ x, x = NaN)
    (to_numeric str_to_float (mask_filter (eq_mask paises "Colombia") vs)) →
  media (to_numeric str_to_float (mask_filter (eq_mask paises "Colombia") vs)) = NaN
  ∧ mediana (to_numeric str_to_float (mask_filter (eq_mask paises "Colombia") vs)) = NaN
  ∧ varianza (to_numeric str_to_float (mask_filter (eq_mask paises "Colombia") vs)) = NaN
  ∧ desviacion (to_numeric str_to_float (mask_filter (eq_mask paises "Colombia") vs)) = RNaN
  ∧ Series.mode (to_numeric str_to_float (mask_filter (eq_mask paises "Colombia") vs)) = []
  ∧ moda (to_numeric str_to_float (mask_filter (eq_mask paises "Colombia") vs)) = inl KeyError
  ∧ (main str_to_float df w).1 = inl (50, KeyError).
Proof.
  intros Hd Hwf Hp Hy Hv _ Hall.
  set (pib := to_numeric str_to_float (mask_filter (eq_mask paises "Colombia") vs)) in *.
  pose proof (dropna_all_nan pib Hall) as Hdrop.
  assert (Series.var pib = NaN) as Hvar by (unfold Series.var; by rewrite Hdrop).
  split_and!.
  - unfold media, Series.mean. by rewrite Hdrop.
  - unfold mediana, Series.median. by rewrite Hdrop.
  - done.
  - unfold desviacion, Series.std. by rewrite Hvar.
  - by apply mode_all_nan.
  - unfold moda. by rewrite mode_all_nan.
  - by eapply main_run_nan.
Qed.

Lemma valores_no_numericos_keyerror_witness :
  mask_filter (eq_mask [Str "Colombia"; Str "Peru"; Str "Colombia"] "Colombia")
    [Str "n/a"; Str "2571"; Str ".."] = [Str "n/a"; Str ".."]
  ∧ (main Ejemplos.parse_decimal 0 (Ejemplos.loaded Ejemplos.df_sin_valores)).1
    = inl (50, KeyError).
Proof.
  split; [reflexivity|].
  apply (valores_no_numericos_keyerror Ejemplos.parse_decimal 0
           (Ejemplos.loaded Ejemplos.df_sin_valores) Ejemplos.df_sin_valores
           [Str "Colombia"; Str "Peru"; Str "Colombia"]
           [Str "1960"; Str "1960"; Str "1961"]
           [Str "n/a"; Str "2571"; Str ".."]);
    [reflexivity|apply (bool_decide_unpack _); vm_compute; exact I
    |reflexivity|reflexivity|reflexivity|discriminate
    |repeat constructor].
Defined.

(** * Further properties of the script *)



(** ** The statistics and the order of the rows *)

Section OrderIndependence.

Implicit Types l : list float.

Lemma dropna_perm l l' : l ≡ₚ l' → Series.dropna l ≡ₚ Series.dropna l'.
Proof. intros Hp. unfold Series.dropna. by rewrite Hp. Qed.

Lemma dropna_perm_nil l l' : l ≡ₚ l' → Series.dropna l = [] → Series.dropna l' = [].
Proof.
  intros Hp%dropna_perm E. rewrite E in Hp. by apply Permutation_nil_l in Hp.
Qed.

Lemma max_dropna_nil l : Series.dropna l = [] → Series.max l = NaN.
Proof. intros E. unfold Series.max. by rewrite E. Qed.

Lemma min_dropna_nil l : Series.dropna l = [] → Series.min l = NaN.
Proof. intros E. unfold Series.min. by rewrite E. Qed.

Lemma max_perm l l' : l ≡ₚ l' → Series.max l = Series.max l'.
Proof.
  intros Hp. destruct (decide (Series.dropna l = [])) as [E|Hne].
  - by rewrite (max_dropna_nil l), (max_dropna_nil l') by eauto using dropna_perm_nil.
  - assert (Series.dropna l' ≠ []) as Hne'.
    { intros E. apply Hne. by eapply dropna_perm_nil. }
    destruct (max_spec l Hne) as [[H1 H2] H3]. destruct (max_spec l' Hne') as [[H1' H2'] H3'].
    apply fleb_antisym; [apply H3'; [by rewrite <-Hp|done]|apply H3; [by rewrite Hp|done]].
Qed.

Lemma min_perm l l' : l ≡ₚ l' → Series.min l = Series.min l'.
Proof.
  intros Hp. destruct (decide (Series.dropna l = [])) as [E|Hne].
  - by rewrite (min_dropna_nil l), (min_dropna_nil l') by eauto using dropna_perm_nil.
  - assert (Series.dropna l' ≠ []) as Hne'.
    { intros E. apply Hne. by eapply dropna_perm_nil. }
    destruct (min_spec l Hne) as [[H1 H2] H3]. destruct (min_spec l' Hne') as [[H1' H2'] H3'].
    apply fleb_antisym; [apply H3; [by rewrite Hp|done]|apply H3'; [by rewrite <-Hp|done]].
Qed.

#[local] Instance fle_antisymm : AntiSymm (=) fle.
Proof. intros x y. apply fleb_antisym. Qed.

(** Sorting forgets the order the values came in. *)
Lemma sort_perm_eq l l' :
  Forall (λ y, y ≠ NaN) l → l ≡ₚ l' → Series.sort l = Series.sort l'.
Proof.
  intros Hl Hp. apply (StronglySorted_unique fle).
  - by apply sort_sorted.
  - apply sort_sorted. by rewrite <-Hp.
  - by rewrite !sort_perm.
Qed.

Lemma median_perm l l' : l ≡ₚ l' → Series.median l = Series.median l'.
Proof.
  intros Hp%dropna_perm. unfold Series.median.
  by rewrite (sort_perm_eq _ _ (dropna_Forall l) Hp).
Qed.

End OrderIndependence.

(** X4.  The median and the extreme values, and with them the range, do
    not depend on the order of the rows: two gdp columns holding the same
    entries in any order have the same median, maximum, minimum and
    range. *)
Theorem mediana_rango_order_independent (pib pib' : list float) :
  pib ≡ₚ pib' →
  mediana pib = mediana pib'
  ∧ Series.max pib = Series.max pib'
  ∧ Series.min pib = Series.min pib'
  ∧ rango pib = rango pib'.
Proof.
  intros Hp. split_and!.
  - by apply median_perm.
  - by apply max_perm.
  - by apply min_perm.
  - unfold rango. by rewrite (max_perm _ _ Hp), (min_perm _ _ Hp).
Qed.

Lemma mediana_rango_order_independent_witness :
  mediana [num 3; NaN; num 1; num 2] = mediana [num 1; num 2; num 3; NaN]
  ∧ rango [num 3; NaN; num 1; num 2] = rango [num 1; num 2; num 3; NaN].
Proof.
  destruct (mediana_rango_order_independent [num 3; NaN; num 1; num 2]
              [num 1; num 2; num 3; NaN]) as (Hm & _ & _ & Hr); [|done].
  apply (bool_decide_unpack _). vm_compute. exact I.
Defined.

(** ** Degenerate columns *)

Section Degenerate.

Lemma value_count_NoDup x l : NoDup l → x ∈ l → Series.value_count x l = 1.
Proof.
  unfold Series.value_count. intros Hnd. induction Hnd as [|y l Hy Hnd IH]; intros Hx.
  - by apply elem_of_nil in Hx.
  - apply elem_of_cons in Hx as [->|Hx].
    + rewrite filter_cons_True by done. simpl. f_equal.
      by apply (value_count_notin y l).
    + rewrite filter_cons_False by (intros ->; done). by apply IH.
Qed.

Lemma mode_head_NoDup l m r :
  NoDup (Series.dropna l) → Series.mode l = m :: r → m = Series.min l.
Proof.
  intros Hnd E. destruct (mode_head_spec _ _ _ E) as [[Hm _] Hmin].
  assert (Series.dropna l ≠ []) as Hne by (intros Hnil; rewrite Hnil in Hm; by apply elem_of_nil in Hm).
  destruct (min_spec l Hne) as [[Hin Hnan] Hlo].
  apply fleb_antisym.
  - apply Hmin; [by apply dropna_elem|].
    rewrite !value_count_NoDup; [done..|by apply dropna_elem].
  - apply dropna_elem in Hm as [Hm1 Hm2]. by apply Hlo.
Qed.

End Degenerate.

(** X12.  On a column whose valid entries are all different, as the
    yearly gdp figures of a country are, the mode statistic of line 50 is
    the smallest entry. *)
Theorem moda_distinct_is_minimum (pib : list float) :
  Series.dropna pib ≠ [] → NoDup (Series.dropna pib) →
  moda pib = inr (Series.min pib).
Proof.
  intros Hne Hnd. unfold moda.
  destruct (Series.mode pib) as [|m r] eqn:E; [by apply mode_nonempty in E|].
  simpl. f_equal. by eapply mode_head_NoDup.
Qed.

Lemma moda_distinct_is_minimum_witness :
  moda [num 4; NaN; num 1; num 2; num 9] = inr (Series.min [num 4; NaN; num 1; num 2; num 9]).
Proof.
  apply (moda_distinct_is_minimum [num 4; NaN; num 1; num 2; num 9]).
  - vm_compute. discriminate.
  - apply (bool_decide_unpack _). vm_compute. exact I.
Defined.



(** ** The whole run *)

Section FullRun.

Variable str_to_float : string → float.

Lemma tendencia_run_err colombia w col pib e :
  frames w !! colombia = Some col →
  columns col !! "PIB (USD)" = Some (Num <$> pib) →
  moda pib = inl e →
  tendencia_y_dispersion colombia w = (inl (50, e), w).
Proof.
  intros Hc Hp Hmo. unfold tendencia_y_dispersion.
  do 3 (erewrite bind_ok by by eapply getitem_float64_run).
  apply bind_err. by rewrite Hmo.
Qed.

Lemma tendencia_run_ok colombia w col pib mo :
  frames w !! colombia = Some col →
  columns col !! "PIB (USD)" = Some (Num <$> pib) →
  moda pib = inr mo →
  tendencia_y_dispersion colombia w
  = (inr (Resultado.medidas_de mo pib),
     {| frames := frames w;
        stdout := stdout w ++ Resultado.salida_medidas (Resultado.medidas_de mo pib) |}).
Proof.
  intros Hc Hp Hmo. unfold tendencia_y_dispersion.
  do 3 (erewrite bind_ok by by eapply getitem_float64_run).
  erewrite bind_ok by (by rewrite Hmo).
  do 3 (erewrite bind_ok by by eapply getitem_float64_run).
  repeat (rewrite bind_run, print_run; cbn [frames stdout]).
  unfold Resultado.medidas_de, Resultado.salida_medidas, coef_variacion. cbn [m_media m_mediana
    m_moda m_rango m_varianza m_desviacion m_coef_variacion].
  unfold mret, py_ret. f_equal. f_equal. by rewrite <-!app_assoc.
Qed.

Lemma visualizaciones_run colombia w t :
  frames w !! colombia = Some t →
  visualizaciones colombia w
  = (inr (), {| frames := frames w; stdout := stdout w ++ Resultado.salida_graficos t |}).
Proof.
  intros Hc. unfold visualizaciones, plot.
  do 4 (erewrite bind_ok;
        [|erewrite bind_ok by (by apply deref_run); apply print_run]).
  erewrite bind_ok by by apply deref_run.
  rewrite print_run. simpl. f_equal. f_equal. by rewrite <-!app_assoc.
Qed.

Lemma conclusiones_run_ok colombia m w col crec anio ymax ymin :
  frames w !! colombia = Some col →
  columns col !! "Crecimiento (%)" = Some (Num <$> crec) →
  columns col !! "Año" = Some (Num <$> anio) →
  anio_max (index col) anio crec = inr ymax →
  anio_min (index col) anio crec = inr ymin →
  conclusiones_automaticas colombia m w
  = (inr (mkConclusiones (crec_max crec) (crec_min crec) ymax ymin),
     {| frames := frames w;
        stdout := stdout w ++ Resultado.salida_conclusiones m
                    (mkConclusiones (crec_max crec) (crec_min crec) ymax ymin) |}).
Proof.
  intros Hc Hg Hy Hmax Hmin. unfold conclusiones_automaticas.
  do 2 (erewrite bind_ok by by eapply getitem_float64_run).
  erewrite bind_ok by by apply deref_run.
  do 2 (erewrite bind_ok by by eapply getitem_float64_run).
  erewrite bind_ok by (by rewrite Hmax).
  erewrite bind_ok by by apply deref_run.
  do 2 (erewrite bind_ok by by eapply getitem_float64_run).
  erewrite bind_ok by (by rewrite Hmin).
  repeat (rewrite bind_run, print_run; cbn [frames stdout]).
  unfold Resultado.salida_conclusiones. cbn [c_crec_max c_crec_min c_anio_max c_anio_min].
  unfold mret, py_ret. f_equal. f_equal. by rewrite <-!app_assoc.
Qed.

Lemma conclusiones_run_err140 colombia m w col crec anio e :
  frames w !! colombia = Some col →
  columns col !! "Crecimiento (%)" = Some (Num <$> crec) →
  columns col !! "Año" = Some (Num <$> anio) →
  anio_max (index col) anio crec = inl e →
  conclusiones_automaticas colombia m w = (inl (140, e), w).
Proof.
  intros Hc Hg Hy Hmax. unfold conclusiones_automaticas.
  do 2 (erewrite bind_ok by by eapply getitem_float64_run).
  erewrite bind_ok by by apply deref_run.
  do 2 (erewrite bind_ok by by eapply getitem_float64_run).
  apply bind_err. by rewrite Hmax.
Qed.

(** Lines 18 to 41 on a table that has the three columns: the working
    table is a new object holding the selected rows and the two numeric
    columns, and the two previews have been printed. *)
Lemma main_to_limpieza df w d paises ys vs :
  frames w !! df = Some d → wf d →
  columns d !! "Country Name" = Some paises →
  columns d !! "Year" = Some ys → columns d !! "Value" = Some vs →
  ∃ colombia w2,
    frames w !! colombia = None
    ∧ frames w2 !! colombia
      = Some (Resultado.con_numeros (select (eq_mask paises "Colombia") d)
                (to_numeric str_to_float (mask_filter (eq_mask paises "Colombia") ys))
                (to_numeric str_to_float (mask_filter (eq_mask paises "Colombia") vs)))
    ∧ stdout w2
      = stdout w ++ Resultado.salida_previas d (select (eq_mask paises "Colombia") d)
    ∧ main str_to_float df w
      = (tendencia_y_dispersion colombia ≫= λ m,
         tasa_de_crecimiento colombia ≫= λ _,
         visualizaciones colombia ≫= λ _,
         conclusiones_automaticas colombia m ≫= λ c, mret (m, c)) w2.
Proof.
  intros Hd [Hnd Hwf] Hp Hy Hv.
  pose proof (Hwf _ _ Hp) as Hlp. pose proof (Hwf _ _ Hy) as Hly.
  pose proof (Hwf _ _ Hv) as Hlv. simpl in Hlp, Hly, Hlv.
  unfold main. rewrite bind_run, print_run.
  erewrite bind_ok by by apply deref_run.
  rewrite bind_run, print_run. simpl.
  match goal with
  | |- context [(filtrar df ≫= _) ?w0] =>
      destruct (filtrar_run df w0 d paises) as (colombia & w1 & Hrun & Hnew & Hcol & Hout);
      [exact Hd|exact Hp|exact Hlp|]
  end.
  simpl in Hnew.
  edestruct (limpieza_run str_to_float colombia w1) as (w2 & Hrun2 & Hout2 & Hcol2);
    [exact Hcol|by apply select_lookup|by apply select_lookup| | |].
  { simpl. by apply mask_filter_length. }
  { simpl. by apply mask_filter_length. }
  exists colombia, w2. split_and!; [done|done| |].
  - rewrite Hout2, Hout. simpl. by rewrite <-!app_assoc.
  - erewrite bind_ok by exact Hrun. by erewrite bind_ok by exact Hrun2.
Qed.

Lemma con_numeros_pib t anio pib :
  columns (Resultado.con_numeros t anio pib) !! "PIB (USD)" = Some (Num <$> pib).
Proof. apply lookup_insert_eq. Qed.

Lemma con_crecimiento_crec t anio pib :
  columns (Resultado.con_crecimiento t anio pib) !! "Crecimiento (%)"
  = Some (Num <$> crecimiento pib).
Proof. apply lookup_insert_eq. Qed.

Lemma con_crecimiento_anio t anio pib :
  columns (Resultado.con_crecimiento t anio pib) !! "Año" = Some (Num <$> anio).
Proof.
  unfold Resultado.con_crecimiento, Resultado.con_numeros. simpl.
  rewrite !lookup_insert_ne by done. apply lookup_insert_eq.
Qed.

(** The rest of the run, from a state where the working table holds its
    numeric columns. *)
Lemma main_from_limpieza colombia w2 t anio pib :
  frames w2 !! colombia = Some (Resultado.con_numeros t anio pib) →
  length pib = length (index t) →
  ((tendencia_y_dispersion colombia ≫= λ m,
    tasa_de_crecimiento colombia ≫= λ _,
    visualizaciones colombia ≫= λ _,
    conclusiones_automaticas colombia m ≫= λ c, mret (m, c)) w2).1
  = Resultado.analisis (index t) anio pib
  ∧ (∀ m c, Resultado.analisis (index t) anio pib = inr (m, c) →
       (tendencia_y_dispersion colombia ≫= λ m,
        tasa_de_crecimiento colombia ≫= λ _,
        visualizaciones colombia ≫= λ _,
        conclusiones_automaticas colombia m ≫= λ c, mret (m, c)) w2
       = (inr (m, c),
          {| frames := <[colombia := Resultado.con_crecimiento t anio pib]> (frames w2);
             stdout := stdout w2 ++ Resultado.salida_medidas m
                         ++ Resultado.salida_graficos (Resultado.con_crecimiento t anio pib)
                         ++ Resultado.salida_conclusiones m c |}))
  ∧ (∀ mo, moda pib = inr mo →
       Series.dropna (crecimiento pib) = [] →
       ∃ e w5,
         (tendencia_y_dispersion colombia ≫= λ m,
          tasa_de_crecimiento colombia ≫= λ _,
          visualizaciones colombia ≫= λ _,
          conclusiones_automaticas colombia m ≫= λ c, mret (m, c)) w2
         = (inl (140, e), w5)
         ∧ stdout w5
           = stdout w2 ++ Resultado.salida_medidas (Resultado.medidas_de mo pib)
               ++ Resultado.salida_graficos (Resultado.con_crecimiento t anio pib)).
Proof.
  intros Hc Hlen. unfold Resultado.analisis.
  destruct (moda pib) as [e|mo] eqn:Hmo.
  { erewrite bind_err by (eapply tendencia_run_err; [exact Hc|apply con_numeros_pib|exact Hmo]).
    split_and!; [done|intros ?? [=]|intros ? [=]]. }
  erewrite bind_ok by (eapply tendencia_run_ok; [exact Hc|apply con_numeros_pib|exact Hmo]).
  erewrite bind_ok.
  2:{ eapply tasa_de_crecimiento_run; [exact Hc|apply con_numeros_pib|exact Hlen]. }
  erewrite bind_ok by (apply visualizaciones_run; simpl; apply lookup_insert_eq).
  match goal with
  | |- context [(conclusiones_automaticas colombia _ ≫= _) ?w] => set (w5 := w)
  end.
  assert (frames w5 !! colombia = Some (Resultado.con_crecimiento t anio pib)) as Hc5
    by apply lookup_insert_eq.
  pose proof (conclusiones_automaticas_run colombia (Resultado.medidas_de mo pib) w5 _ _ _
                Hc5 (con_crecimiento_crec t anio pib) (con_crecimiento_anio t anio pib)) as Hres.
  change (index (Resultado.con_crecimiento t anio pib)) with (index t) in Hres.
  split_and!.
  - rewrite bind_run.
    destruct (conclusiones_automaticas colombia (Resultado.medidas_de mo pib) w5)
      as [[tb|c] w6] eqn:E; simpl in Hres |- *.
    + destruct (anio_max _ _ _); [by simplify_eq|].
      destruct (anio_min _ _ _); by simplify_eq.
    + destruct (anio_max _ _ _); [done|]. destruct (anio_min _ _ _); [done|]. by simplify_eq.
  - intros m c Hmc.
    destruct (anio_max (index t) anio (crecimiento pib)) as [|ymax] eqn:Hmax; [done|].
    destruct (anio_min (index t) anio (crecimiento pib)) as [|ymin] eqn:Hmin; [done|].
    simplify_eq.
    erewrite bind_ok.
    2:{ eapply conclusiones_run_ok;
          [exact Hc5|apply con_crecimiento_crec|apply con_crecimiento_anio|exact Hmax|exact Hmin]. }
    unfold w5. cbn [frames stdout]. unfold mret, py_ret. f_equal. f_equal.
    by rewrite <-!app_assoc.
  - intros mo' [= <-] Hnan.
    assert (anio_max (index t) anio (crecimiento pib) = inl KeyError) as Hmax.
    { unfold anio_max, Series.idxmax, Series.nanargmax.
      destruct (Series.fillna (Inf true) (crecimiento pib)) as [|x r] eqn:Ef.
      - exfalso. apply (f_equal length) in Ef. unfold Series.fillna in Ef.
        rewrite length_fmap, crecimiento_length in Ef.
        destruct pib; [by vm_compute in Hmo|discriminate Ef].
      - by rewrite decide_True. }
    exists KeyError, w5. split; [|unfold w5; cbn [stdout]; by rewrite <-app_assoc].
    apply bind_err. eapply conclusiones_run_err140;
      [exact Hc5|apply con_crecimiento_crec|apply con_crecimiento_anio|exact Hmax].
Qed.

End FullRun.

(** X9.  When the gdp column has a valid entry but the growth column
    has none (a working table of one row, for instance), the script
    prints the statistics and draws the five charts, and then stops with
    an uncaught exception at the maximum-growth lookup of line 140; no
    conclusion is printed. *)
Theorem main_sin_crecimiento (str_to_float : string → float) (df : nat) (w : world)
    (d : DataFrame) (paises ys vs : list cell) :
  frames w !! df = Some d → wf d →
  columns d !! "Country Name" = Some paises →
  columns d !! "Year" = Some ys → columns d !! "Value" = Some vs →
  Series.dropna (to_numeric str_to_float (mask_filter (eq_mask paises "Colombia") vs)) ≠ [] →
  Series.dropna
    (crecimiento (to_numeric str_to_float (mask_filter (eq_mask paises "Colombia") vs))) = [] →
  ∃ e mo,
    moda (to_numeric str_to_float (mask_filter (eq_mask paises "Colombia") vs)) = inr mo
    ∧ (main str_to_float df w).1 = inl (140, e)
    ∧ stdout (main str_to_float df w).2
      = stdout w ++ Resultado.salida_previas d (select (eq_mask paises "Colombia") d)
          ++ Resultado.salida_medidas
               (Resultado.medidas_de mo
                  (to_numeric str_to_float (mask_filter (eq_mask paises "Colombia") vs)))
          ++ Resultado.salida_graficos
               (Resultado.con_crecimiento (select (eq_mask paises "Colombia") d)
                  (to_numeric str_to_float (mask_filter (eq_mask paises "Colombia") ys))
                  (to_numeric str_to_float (mask_filter (eq_mask paises "Colombia") vs))).
Proof.
  intros Hd Hwf Hp Hy Hv Hvalid Hnan.
  destruct (main_to_limpieza str_to_float df w d paises ys vs Hd Hwf Hp Hy Hv)
    as (colombia & w2 & Hnew & Hc & Hout & Hmain).
  assert (length (to_numeric str_to_float (mask_filter (eq_mask paises "Colombia") vs))
          = length (index (select (eq_mask paises "Colombia") d))) as Hlv.
  { rewrite to_numeric_length. simpl. apply mask_filter_length.
    destruct Hwf as [_ Hwf']. apply (Hwf' _ _ Hv). }
  destruct (main_from_limpieza colombia w2 _ _ _ Hc Hlv) as (_ & _ & Hstop).
  destruct (moda (to_numeric str_to_float (mask_filter (eq_mask paises "Colombia") vs)))
    as [e0|mo] eqn:Hmo.
  { exfalso. unfold moda in Hmo.
    destruct (Series.mode _) eqn:E; [|done]. by apply mode_nonempty in E. }
  destruct (Hstop mo eq_refl Hnan) as (e & w5 & Hrun & Hout5).
  exists e, mo. rewrite Hmain, Hrun. cbn [fst snd].
  split_and!; [done|done|]. rewrite Hout5, Hout. by rewrite <-!app_assoc.
Qed.

Lemma main_sin_crecimiento_witness :
  ∃ e, (main Ejemplos.parse_decimal 0 (Ejemplos.loaded Ejemplos.df_una_fila)).1 = inl (140, e).
Proof.
  destruct (main_sin_crecimiento Ejemplos.parse_decimal 0
              (Ejemplos.loaded Ejemplos.df_una_fila) Ejemplos.df_una_fila
              [Str "Peru"; Str "Colombia"] [Str "1960"; Str "1960"] [Str "2571"; Str "4031"])
    as (e & mo & _ & Hrun & _);
    [reflexivity|apply (bool_decide_unpack _); vm_compute; exact I
    |reflexivity|reflexivity|reflexivity|vm_compute; discriminate|reflexivity|].
  by exists e.
Defined.

(** X10.  A source table that lacks one of the three columns stops the
    script with an uncaught KeyError at the line that first reads the
    column: line 29 for the country column, before any object is created;
    line 40 for the year column; line 41 for the value column. *)
Theorem columna_ausente_keyerror (str_to_float : string → float) (df : nat) (w : world)
    (d : DataFrame) :
  frames w !! df = Some d → wf d →
  (columns d !! "Country Name" = None →
     (main str_to_float df w).1 = inl (29, KeyError)
     ∧ frames (main str_to_float df w).2 = frames w)
  ∧ (∀ paises, columns d !! "Country Name" = Some paises → columns d !! "Year" = None →
       (main str_to_float df w).1 = inl (40, KeyError))
  ∧ (∀ paises ys, columns d !! "Country Name" = Some paises →
       columns d !! "Year" = Some ys → columns d !! "Value" = None →
       (main str_to_float df w).1 = inl (41, KeyError)).
Proof.
  intros Hd [Hnd Hwf]. split_and!.
  - intros Hnone. unfold main. rewrite bind_run, print_run.
    erewrite bind_ok by by apply deref_run.
    rewrite bind_run, print_run. cbn [frames stdout].
    erewrite bind_err; cycle 1.
    { unfold filtrar. apply bind_err. unfold getitem.
      erewrite bind_ok by (by apply deref_run). by rewrite Hnone. }
    done.
  - intros paises Hp Hnone. pose proof (Hwf _ _ Hp) as Hlp. simpl in Hlp.
    unfold main. rewrite bind_run, print_run.
    erewrite bind_ok by by apply deref_run.
    rewrite bind_run, print_run. cbn [frames stdout].
    match goal with
    | |- context [(filtrar df ≫= _) ?w0] =>
        destruct (filtrar_run df w0 d paises) as (colombia & w1 & Hrun & _ & Hcol & _);
        [exact Hd|exact Hp|exact Hlp|]
    end.
    erewrite bind_ok by exact Hrun.
    erewrite bind_err; cycle 1.
    { unfold limpieza. apply bind_err.
      unfold getitem. erewrite bind_ok by (by apply deref_run).
      unfold select. cbn [columns]. by rewrite lookup_fmap, Hnone. }
    done.
  - intros paises ys Hp Hy Hnone. pose proof (Hwf _ _ Hp) as Hlp.
    pose proof (Hwf _ _ Hy) as Hly. simpl in Hlp, Hly.
    unfold main. rewrite bind_run, print_run.
    erewrite bind_ok by by apply deref_run.
    rewrite bind_run, print_run. cbn [frames stdout].
    match goal with
    | |- context [(filtrar df ≫= _) ?w0] =>
        destruct (filtrar_run df w0 d paises) as (colombia & w1 & Hrun & _ & Hcol & _);
        [exact Hd|exact Hp|exact Hlp|]
    end.
    erewrite bind_ok by exact Hrun.
    erewrite bind_err; cycle 1.
    { unfold limpieza.
      erewrite bind_ok by (eapply getitem_run; [exact Hcol|by apply select_lookup]).
      erewrite bind_ok.
      2:{ apply setitem_run; [exact Hcol|].
          rewrite to_numeric_length. simpl. by apply mask_filter_length. }
      apply bind_err. unfold getitem.
      erewrite bind_ok by (apply deref_run; simpl; apply lookup_insert_eq).
      cbn [columns]. rewrite lookup_insert_ne by done.
      unfold select. cbn [columns]. by rewrite lookup_fmap, Hnone. }
    done.
Qed.

Lemma columna_ausente_keyerror_witness :
  (main Ejemplos.parse_decimal 0 (Ejemplos.loaded Ejemplos.df_sin_year)).1
  = inl (40, KeyError).
Proof.
  destruct (columna_ausente_keyerror Ejemplos.parse_decimal 0
              (Ejemplos.loaded Ejemplos.df_sin_year) Ejemplos.df_sin_year)
    as (_ & H40 & _);
    [reflexivity|apply (bool_decide_unpack _); vm_compute; exact I|].
  apply (H40 [Str "Peru"; Str "Colombia"]); reflexivity.
Defined.

(** X11.  The maximum and minimum growth of lines 138 and 139 are
    entries of the growth column that bound every non-missing entry, and
    the minimum is at most the maximum; when the column has no valid
    entry both are NaN. *)
Theorem crec_max_min_bounds (crec : list float) :
  (Series.dropna crec ≠ [] →
     crec_max crec ∈ crec ∧ crec_min crec ∈ crec
     ∧ crec_max crec ≠ NaN ∧ crec_min crec ≠ NaN
     ∧ fleb (crec_min crec) (crec_max crec) = true
     ∧ ∀ g, g ∈ crec → g ≠ NaN →
         fleb (crec_min crec) g = true ∧ fleb g (crec_max crec) = true)
  ∧ (Series.dropna crec = [] → crec_max crec = NaN ∧ crec_min crec = NaN).
Proof.
  split.
  - intros Hne. destruct (max_spec crec Hne) as [[H1 H2] H3].
    destruct (min_spec crec Hne) as [[H4 H5] H6].
    split_and!; [done..| |]; auto.
  - intros E. split; [by apply max_dropna_nil|by apply min_dropna_nil].
Qed.

Lemma crec_max_min_bounds_witness :
  crec_max [NaN; num 10; num (-10); num 0] ∈ [NaN; num 10; num (-10); num 0]
  ∧ fleb (crec_min [NaN; num 10; num (-10); num 0])
         (crec_max [NaN; num 10; num (-10); num 0]) = true.
Proof.
  destruct (crec_max_min_bounds [NaN; num 10; num (-10); num 0]) as [H _].
  destruct H as (H1 & _ & _ & _ & H5 & _); [vm_compute; discriminate|].
  by split.
Defined.

(** ** Runs on concrete inputs *)

Example mode_ex : Series.mode [num 100; num 100; num 200] = [num 100].
Proof. fdecide. Qed.

Example mode_tie_ex :
  Series.mode [num 3; num 1; NaN; num 3; num 1; num 2] = [num 1; num 3].
Proof. fdecide. Qed.

Example mean_ex : Series.mean [num 100; num 200; num 300] = num 200.
Proof. fdecide. Qed.

Example median_ex : Series.median [num 100; num 300; num 200; NaN; num 0] = num 150.
Proof. fdecide. Qed.

Example idxmax_ex :
  Series.idxmax [7; 8; 9; 10] [NaN; num 5; num 5; num (-3)] = inr (Some 8).
Proof. fdecide. Qed.

(** The whole script on a table with four rows of the target country,
    gdp 100, 110, 99, 99: it finishes, with mean 102, median 99.5, mode 99
    and range 11; the largest growth is that of 1961, the largest fall that
    of 1962. *)
Example main_colombia_ex :
  Ejemplos.resumen (main Ejemplos.parse_decimal 0 (Ejemplos.loaded Ejemplos.df_colombia)).1
  = Some (num 102, Fin (Qc_of_Z 199 / Qc_of_Z 2)%Qc, num 99, num 11, (1961%Z, 1962%Z)).
Proof. fdecide. Qed.

(** The working table it leaves in the heap: the raw rows 0, 2, 3, 4, with
    a growth column of four entries, the first one missing. *)
Example main_colombia_frame_ex :
  (λ d, (index d, (λ c, (length c, c !! 0)) <$> columns d !! "Crecimiento (%)")) <$>
    frames (main Ejemplos.parse_decimal 0 (Ejemplos.loaded Ejemplos.df_colombia)).2 !! 2
  = Some ([0; 2; 3; 4], Some (4, Some (Num NaN))).
Proof. fdecide. Qed.
